(** * opencode-usage: loaders and the usage table, embedded and verified

    The development follows the TypeScript sources.

    Models, one module per source file:
    - [Loader]       [src/loader.ts], the SQLite message loader;
    - [FileLoader]   the directory-scanning [loadMessages];
    - [Codex]        [loadCodexQuota], the Codex quota source;
    - [UsageTable]   [dashboard/usage-table.ts], the usage table renderer.

    Then the vocabulary of the statements and the fixtures of the test
    suite ([LoaderSpec], [FilterSpec], [CodexSpec], [TableSpec]), and
    last the facts ([LoaderFacts], [FilterFacts], [CodexFacts],
    [UStrFacts], [UsageTableFacts]).

    JavaScript exceptions and [console.error] are threaded through a small
    monad; timestamps are integers; other JS numbers are exact rationals;
    the calls of the runtime that the sources rely on ([JSON.parse],
    [fetch], [toFixed], [toString], [localeCompare]) are parameters. *)

From Stdlib Require Import List String Ascii ZArith QArith Qround Bool Lia.
From Stdlib Require Import DecimalString Sorted Permutation.
Import ListNotations.

Local Open Scope string_scope.
Local Open Scope Z_scope.

(* ===================================================================== *)
(** ** Exceptions and the console *)
(* ===================================================================== *)

Module Js.

(** A thrown JavaScript value: an [Error] object (its [name] and
    [message]) or anything else, kept by its string conversion. *)
Inductive Thrown : Type :=
| ErrorObject (name message : string)
| NonError (text : string).

(** [String(err)], as the template literal [`${err}`] computes it
    ([Error.prototype.toString] for error objects). *)
Definition String_of (err : Thrown) : string :=
  match err with
  | ErrorObject name message =>
      if (name =? "")%string then message
      else if (message =? "")%string then name
      else name ++ ": " ++ message
  | NonError text => text
  end.

(** The result of evaluating an expression: a value or a throw. *)
Inductive Outcome (A : Type) : Type :=
| Returned (a : A)
| Threw (err : Thrown).
Arguments Returned {A} a.
Arguments Threw {A} err.

(** Lines written with [console.error], oldest first. *)
Definition Console := list string.

(** Computations that may throw and may write to the console. *)
Definition M (A : Type) : Type := Console -> Outcome A * Console.

Definition ret {A} (a : A) : M A := fun out => (Returned a, out).

Definition throw {A} (err : Thrown) : M A := fun out => (Threw err, out).

Definition bind {A B} (c : M A) (k : A -> M B) : M B :=
  fun out =>
    match c out with
    | (Returned a, out') => k a out'
    | (Threw err, out') => (Threw err, out')
    end.

(** [try { body } catch (err) { handler }] *)
Definition try_catch {A} (body : M A) (handler : Thrown -> M A) : M A :=
  fun out =>
    match body out with
    | (Returned a, out') => (Returned a, out')
    | (Threw err, out') => handler err out'
    end.

(** [try { body } finally { cleanup }]: the cleanup always runs; if it
    throws, its exception replaces the body's completion. *)
Definition try_finally {A} (body : M A) (cleanup : M unit) : M A :=
  fun out =>
    match body out with
    | (res, out') =>
        match cleanup out' with
        | (Returned _, out'') => (res, out'')
        | (Threw err, out'') => (Threw err, out'')
        end
    end.

Definition console_error (line : string) : M unit :=
  fun out => (Returned tt, (out ++ [line])%list).

(** Lift a pure outcome (a library call that may throw). *)
Definition lift {A} (o : Outcome A) : M A := fun out => (o, out).

(** [Array.prototype.map] with a callback that may throw: elements are
    visited in order and the first throw aborts the traversal. *)
Fixpoint mapM {A B} (f : A -> M B) (xs : list A) : M (list B) :=
  match xs with
  | [] => ret []
  | x :: xs' =>
      bind (f x) (fun y => bind (mapM f xs') (fun ys => ret (y :: ys)))
  end.

End Js.

Import Js.

Declare Scope js_scope.
Delimit Scope js_scope with js.
Notation "x <- c ;; k" := (bind c (fun x => k))
  (at level 61, c at next level, right associativity) : js_scope.
Notation "c ;;; k" := (bind c (fun _ => k))
  (at level 61, right associativity) : js_scope.
Local Open Scope js_scope.

(* ===================================================================== *)
(** ** Strings *)
(* ===================================================================== *)

(** [String.prototype.toLowerCase] on the ASCII letters; identifiers of
    providers, roles and models are kept as 8-bit strings and other units
    are left as they are. *)
Definition lower_ascii (c : ascii) : ascii :=
  let n := nat_of_ascii c in
  if ((65 <=? n)%nat && (n <=? 90)%nat)%bool then ascii_of_nat (n + 32) else c.

Fixpoint toLowerCase (s : string) : string :=
  match s with
  | EmptyString => EmptyString
  | String c s' => String (lower_ascii c) (toLowerCase s')
  end.

(** [String.prototype.endsWith] *)
Definition endsWith (s suffix : string) : bool :=
  let n := String.length s in
  let k := String.length suffix in
  ((k <=? n)%nat && (substring (n - k) k s =? suffix)%string)%bool.

(** Truthiness of an optional string: absent and empty are falsy. *)
Definition truthy_string (s : option string) : bool :=
  match s with
  | Some v => negb (v =? "")%string
  | None => false
  end.

(* ===================================================================== *)
(** ** Messages (types.ts) *)
(* ===================================================================== *)

(** Modelled from the spec: [types.ts] is not among the sources.  The
    record shapes are the ones section 3 of the specification describes
    (role, model/provider pair, token breakdown, creation time) with the
    field names that [loader.ts] and the test fixtures use. *)
Record TokenUsage : Type := {
  tok_input : Z;
  tok_output : Z;
  tok_reasoning : Z;
  tok_cache_read : Z;
  tok_cache_write : Z
}.

Record ModelRef : Type := {
  model_providerID : string;
  model_modelID : string
}.

Record MessageTime : Type := {
  time_created_ms : Z;
  time_completed_ms : option Z
}.

(** [Omit<MessageJson, "id" | "sessionID">]: what the [data] column of a
    row decodes to. *)
Record MessageData : Type := {
  d_role : string;
  d_model : option ModelRef;
  d_providerID : option string;
  d_tokens : option TokenUsage;
  d_time : option MessageTime
}.

Record MessageJson : Type := {
  id : string;
  sessionID : string;
  role : string;
  model : option ModelRef;
  providerID : option string;
  tokens : option TokenUsage;
  time : option MessageTime
}.

Record CursorState : Type := { lastTimestamp : Z }.

(** The validity filter.  [loader.ts] has it as [isValidMessage]; the
    directory loader repeats the same three tests inline. *)
Definition isValidMessage (msg : MessageJson) (providerFilter : option string)
  : bool :=
  if (role msg =? "user")%string then false
  else if match tokens msg with None => true | Some _ => false end then false
  else if truthy_string providerFilter then
    let providerId :=
      match model msg with
      | Some m => model_providerID m
      | None =>
          match providerID msg with
          | Some p => p
          | None => "unknown"
          end
      end in
    if negb (toLowerCase providerId =?
             match providerFilter with Some f => f | None => "" end)%string
    then false
    else true
  else true.

(* ===================================================================== *)
(** ** The SQLite loader (loader.ts) *)
(* ===================================================================== *)

Module Loader.

Record MessageRow : Type := {
  row_id : string;
  session_id : string;
  time_created : Z;
  data : string
}.

(** What [opencode.db] under the storage path holds.  [new Database]
    throws when the file cannot be opened; a file that opens may still
    make every query on the [message] table throw. *)
Inductive Database : Type :=
| Malformed (err : Thrown)
| MessageTable (rows : list MessageRow).

Inductive Storage : Type :=
| Unreachable (err : Thrown)
| Opened (db : Database).

Definition openDb (dataPath : Storage) : M Database :=
  match dataPath with
  | Unreachable err => throw err
  | Opened db => ret db
  end.

(** [db.query(sql).all(...)] for the three [SELECT]s of the file, each
    given by its [WHERE] condition; rows come back in table order. *)
Definition query_all (db : Database) (where_ : MessageRow -> bool)
  : M (list MessageRow) :=
  match db with
  | Malformed err => throw err
  | MessageTable rows => ret (filter where_ rows)
  end.

Definition close (db : Database) : M unit := ret tt.

Definition createCursor : CursorState := {| lastTimestamp := 0 |}.

Record LoadResult : Type := {
  messages : list MessageJson;
  cursor : CursorState
}.

Section WithParser.

(** [JSON.parse] followed by the cast to the message shape; it throws a
    [SyntaxError] on text that is not JSON. *)
Variable JSON_parse : string -> Outcome MessageData.

Definition rowToMessage (row : MessageRow) : M MessageJson :=
  data <- lift (JSON_parse (data row)) ;;
  ret {| id := row_id row;
         sessionID := session_id row;
         role := d_role data;
         model := d_model data;
         providerID := d_providerID data;
         tokens := d_tokens data;
         time := d_time data |}.

Definition loadRecentMessages (now : Z) (storagePath : Storage)
    (hoursBack : option Z) (providerFilter : option string)
  : M (list MessageJson) :=
  let hoursBack := match hoursBack with Some h => h | None => 24 end in
  let cutoffTime := now - hoursBack * 60 * 60 * 1000 in
  try_catch
    (db <- openDb storagePath ;;
     try_finally
       (rows <- query_all db (fun r => time_created r >=? cutoffTime) ;;
        msgs <- mapM rowToMessage rows ;;
        ret (filter (fun msg => isValidMessage msg providerFilter) msgs))
       (close db))
    (fun err =>
       console_error ("Error reading recent messages: " ++ String_of err) ;;;
       ret []).

Definition loadMessages (storagePath : Storage)
    (providerFilter : option string) : M (list MessageJson) :=
  try_catch
    (db <- openDb storagePath ;;
     try_finally
       (rows <- query_all db (fun _ => true) ;;
        msgs <- mapM rowToMessage rows ;;
        ret (filter (fun msg => isValidMessage msg providerFilter) msgs))
       (close db))
    (fun err =>
       console_error
         ("Error reading messages from database: " ++ String_of err) ;;;
       ret []).

Definition loadMessagesIncremental (storagePath : Storage)
    (cursor : CursorState) (providerFilter : option string) : M LoadResult :=
  try_catch
    (db <- openDb storagePath ;;
     try_finally
       (rows <- query_all db
                  (fun r => time_created r >? lastTimestamp cursor) ;;
        msgs <- mapM rowToMessage rows ;;
        let messages :=
          filter (fun msg => isValidMessage msg providerFilter) msgs in
        let maxTimestamp :=
          fold_left
            (fun maxTimestamp row =>
               if time_created row >? maxTimestamp
               then time_created row else maxTimestamp)
            rows (lastTimestamp cursor) in
        ret {| messages := messages;
               cursor := {| lastTimestamp := maxTimestamp |} |})
       (close db))
    (fun err =>
       console_error ("Error in incremental load: " ++ String_of err) ;;;
       ret {| messages := [];
              cursor := {| lastTimestamp := lastTimestamp cursor |} |}).

(** Successive incremental calls, each resuming from the cursor the
    previous one returned; [stores] gives the state of the store at each
    call.  The result lists the cursors returned, in call order. *)
Fixpoint successiveLoads (stores : list Storage) (c : CursorState)
    (providerFilter : option string) (out : Console) : list CursorState :=
  match stores with
  | [] => []
  | s :: stores' =>
      match loadMessagesIncremental s c providerFilter out with
      | (Returned r, out') =>
          cursor r :: successiveLoads stores' (cursor r) providerFilter out'
      | (Threw _, _) => []
      end
  end.

End WithParser.

End Loader.

(* ===================================================================== *)
(** ** The directory loader (the file-per-message [loadMessages]) *)
(* ===================================================================== *)

Module FileLoader.

(** A message file: its name and what reading it gives. *)
Record FileEntry : Type := {
  file_name : string;
  file_content : Outcome string
}.

(** An entry of the [message] directory: [statSync] answers whether it is
    a directory (or throws); [readdirSync] lists it (or throws). *)
Record DirEntry : Type := {
  dir_name : string;
  dir_isDirectory : Outcome bool;
  dir_listing : Outcome (list FileEntry)
}.

(** What [readdirSync(join(storagePath, "message"))] finds. *)
Definition Storage : Type := Outcome (list DirEntry).

(** [results.filter(p)] with a type guard: the entries the predicate keeps,
    at the narrowed type. *)
Fixpoint filter_guard (p : option MessageJson -> bool)
    (results : list (option MessageJson)) : list MessageJson :=
  match results with
  | [] => []
  | r :: results' =>
      match r with
      | Some msg =>
          if p r then msg :: filter_guard p results'
          else filter_guard p results'
      | None => filter_guard p results'
      end
  end.

Section WithParser.

(** [JSON.parse] of a file's text, cast to the message shape; [None] is
    the JSON value [null]. *)
Variable JSON_parse : string -> Outcome (option MessageJson).

Definition readJsonFile (filePath : FileEntry) : M (option MessageJson) :=
  content <- lift (file_content filePath) ;;
  lift (JSON_parse content).

(** The body of the [for (const sessionDir of sessionDirs)] loop. *)
Definition collectSession (filePaths : list FileEntry) (sessionDir : DirEntry)
  : M (list FileEntry) :=
  isDirectory <- lift (dir_isDirectory sessionDir) ;;
  if negb isDirectory then ret filePaths
  else
    listing <- lift (dir_listing sessionDir) ;;
    let messageFiles :=
      filter (fun f => endsWith (file_name f) ".json") listing in
    ret (filePaths ++ messageFiles)%list.

Fixpoint collectFilePaths (filePaths : list FileEntry)
    (sessionDirs : list DirEntry) : M (list FileEntry) :=
  match sessionDirs with
  | [] => ret filePaths
  | sessionDir :: rest =>
      filePaths' <- collectSession filePaths sessionDir ;;
      collectFilePaths filePaths' rest
  end.

Definition loadMessages (storagePath : Storage)
    (providerFilter : option string) : M (list MessageJson) :=
  try_catch
    (sessionDirs <- lift storagePath ;;
     filePaths <- collectFilePaths [] sessionDirs ;;
     results <- mapM
       (fun filePath =>
          try_catch (readJsonFile filePath) (fun _ => ret None))
       filePaths ;;
     ret (filter_guard
            (fun msg =>
               match msg with
               | None => false
               | Some msg =>
                   if (role msg =? "user")%string then false
                   else if match tokens msg with
                           | None => true | Some _ => false end then false
                   else if truthy_string providerFilter then
                     let providerId :=
                       match model msg with
                       | Some m => model_providerID m
                       | None =>
                           match providerID msg with
                           | Some p => p
                           | None => "unknown"
                           end
                       end in
                     if negb (toLowerCase providerId =?
                              match providerFilter with
                              | Some f => f | None => "" end)%string
                     then false
                     else true
                   else true
               end)
            results))
    (fun err =>
       console_error ("Error reading messages directory: " ++ String_of err) ;;;
       ret []).

End WithParser.

End FileLoader.

(* ===================================================================== *)
(** ** The Codex quota source ([loadCodexQuota]) *)
(* ===================================================================== *)

Module Codex.

Local Open Scope Q_scope.

(** Modelled from the spec: [types.ts] is not among the sources.  A quota
    snapshot has a source, a label, a used fraction, an optional reset
    instant and an optional error string (section 3); the response shape
    is the one the loader reads. *)
Record QuotaSnapshot : Type := {
  source : string;
  label : string;
  used : Q;
  resetAt : option Q;
  error : option string
}.

Record Window : Type := {
  used_percent : Q;
  reset_at : Q
}.

Record RateLimit : Type := {
  primary_window : option Window;
  secondary_window : option Window
}.

Record CodexUsageResponse : Type := {
  rate_limit : option RateLimit;
  code_review_rate_limit : option RateLimit
}.

Record Request : Type := {
  url : string;
  method : string;
  authorization : string;
  content_type : string
}.

(** A [fetch] response: [ok], [status], and what [response.json()] gives,
    [None] being the JSON value [null]. *)
Record Response : Type := {
  ok : bool;
  status : Z;
  json : Outcome (option CodexUsageResponse)
}.

(** The network: what [fetch] does with a request. *)
Definition Network : Type := Request -> Outcome Response.

Definition CODEX_API_URL : string :=
  "https://chatgpt.com/backend-api/wham/usage".

(** [`${n}`] for an integer status code. *)
Definition Number_toString (n : Z) : string :=
  NilZero.string_of_int (Z.to_int n).

(** Reading a property of [data]: a [TypeError] when [data] is [null]. *)
Definition property {A} (data : option CodexUsageResponse)
    (get : CodexUsageResponse -> A) : M A :=
  match data with
  | Some d => ret (get d)
  | None =>
      throw (ErrorObject "TypeError" "null is not an object")
  end.

(** [results.push(...)] when the window is present. *)
Definition push_window (results : list QuotaSnapshot) (label : string)
    (window : option Window) : list QuotaSnapshot :=
  match window with
  | Some w =>
      (results ++ [ {| source := "codex";
                       label := label;
                       used := used_percent w / 100;
                       resetAt := Some (reset_at w);
                       error := None |} ])%list
  | None => results
  end.

Definition loadCodexQuota (fetch : Network) (token : option string)
  : M (list QuotaSnapshot) :=
  if negb (truthy_string token) then
    ret [ {| source := "codex"; label := "Codex"; used := 0;
             resetAt := None;
             error := Some "No --codex-token provided" |} ]
  else
    let token := match token with Some t => t | None => "" end in
    try_catch
      (response <- lift (fetch {| url := CODEX_API_URL;
                                  method := "GET";
                                  authorization := "Bearer " ++ token;
                                  content_type := "application/json" |}) ;;
       if negb (ok response) then
         ret [ {| source := "codex"; label := "Codex"; used := 0;
                  resetAt := None;
                  error := Some ("API error: "
                                 ++ Number_toString (status response)) |} ]
       else
         data <- lift (json response) ;;
         let results := [] in
         rate_limit1 <- property data rate_limit ;;
         let results :=
           push_window results "Codex - 5h Limit"
             (match rate_limit1 with
              | Some r => primary_window r | None => None end) in
         rate_limit2 <- property data rate_limit ;;
         let results :=
           push_window results "Codex - Weekly"
             (match rate_limit2 with
              | Some r => secondary_window r | None => None end) in
         code_review <- property data code_review_rate_limit ;;
         let results :=
           push_window results "Codex - Code Review"
             (match code_review with
              | Some r => primary_window r | None => None end) in
         ret (if (0 <? Z.of_nat (List.length results))%Z
              then results
              else [ {| source := "codex"; label := "Codex"; used := 0;
                        resetAt := None;
                        error := Some "No rate limit data" |} ]))
      (fun err =>
         ret [ {| source := "codex"; label := "Codex"; used := 0;
                  resetAt := None;
                  error := Some ("Request failed: "
                                 ++ match err with
                                    | ErrorObject _ message => message
                                    | NonError _ => "Unknown error"
                                    end) |} ]).

End Codex.

(* ===================================================================== *)
(** ** JavaScript strings as sequences of UTF-16 code units *)
(* ===================================================================== *)

(** The renderer measures and pads strings, so there a string is the list
    of its code units: [length], [padEnd], [padStart], [substring] and
    [repeat] count units, and the box-drawing characters are one unit
    each. *)
Module UStr.

Local Open Scope list_scope.

Definition jsstring : Type := list N.

(** An ASCII literal. *)
Definition lit (s : string) : jsstring :=
  map N_of_ascii (list_ascii_of_string s).

Definition space : jsstring := [32%N].

(** [s.repeat(n)] *)
Fixpoint repeat_str (s : jsstring) (n : nat) : jsstring :=
  match n with
  | O => []
  | S n' => s ++ repeat_str s n'
  end.

(** [s.padEnd(len)] and [s.padStart(len)] with the default filler. *)
Definition padEnd (s : jsstring) (len : nat) : jsstring :=
  s ++ repeat_str space (len - List.length s).

Definition padStart (s : jsstring) (len : nat) : jsstring :=
  repeat_str space (len - List.length s) ++ s.

(** [s.substring(0, n)] *)
Definition substring0 (n : nat) (s : jsstring) : jsstring := firstn n s.

Fixpoint eqb (a b : jsstring) : bool :=
  match a, b with
  | [], [] => true
  | x :: a', y :: b' => (x =? y)%N && eqb a' b'
  | _, _ => false
  end.

(** The order of the default [Array.prototype.sort]: code unit by code
    unit, a proper prefix first.  Negative, zero or positive. *)
Fixpoint compare_units (a b : jsstring) : Z :=
  match a, b with
  | [], [] => 0
  | [], _ :: _ => -1
  | _ :: _, [] => 1
  | x :: a', y :: b' =>
      if (x <? y)%N then -1
      else if (y <? x)%N then 1
      else compare_units a' b'
  end.

(** [Array.prototype.sort(cmp)]: a stable sort; [x] is placed before the
    first element that does not precede it. *)
Fixpoint insert_sorted {A} (cmp : A -> A -> Z) (x : A) (l : list A)
  : list A :=
  match l with
  | [] => [x]
  | y :: l' =>
      if cmp x y <=? 0 then x :: y :: l'
      else y :: insert_sorted cmp x l'
  end.

Fixpoint sort {A} (cmp : A -> A -> Z) (l : list A) : list A :=
  match l with
  | [] => []
  | x :: l' => insert_sorted cmp x (sort cmp l')
  end.

End UStr.

(* ===================================================================== *)
(** ** The usage table (dashboard/usage-table.ts) *)
(* ===================================================================== *)

Module UsageTable.

Import UStr.
Local Open Scope list_scope.
Local Open Scope Q_scope.

(** Modelled from the spec: [types.ts] is not among the sources.  A daily
    aggregate carries the summed token counts by category, a cost, and the
    sets of models and providers seen (section 3); a [Set] is the list of
    its elements in insertion order, a [Map] the list of its entries. *)
Record ProviderStats : Type := {
  p_input : Q;
  p_output : Q;
  p_cacheWrite : Q;
  p_cacheRead : Q;
  p_reasoning : Q;
  p_cost : Q;
  p_models : list jsstring
}.

Record DailyStats : Type := {
  date : jsstring;
  models : list jsstring;
  providers : list jsstring;
  providerStats : list (jsstring * ProviderStats);
  input : Q;
  output : Q;
  cacheWrite : Q;
  cacheRead : Q;
  reasoning : Q;
  cost : Q
}.

(** [Map.prototype.get] *)
Fixpoint Map_get {V} (key : jsstring) (m : list (jsstring * V)) : option V :=
  match m with
  | [] => None
  | (k, v) :: m' => if eqb k key then Some v else Map_get key m'
  end.

Inductive TableWidthTier : Type := narrow | medium | wide.

Definition tier_eqb (a b : TableWidthTier) : bool :=
  match a, b with
  | narrow, narrow | medium, medium | wide, wide => true
  | _, _ => false
  end.

Definition getTableWidthTier (width : Z) : TableWidthTier :=
  if (width <? 105)%Z then narrow
  else if (width <? 140)%Z then medium
  else wide.

(** Border characters. *)
Definition h : jsstring := [9472%N].
Definition v : jsstring := [9474%N].
Definition tl : jsstring := [9484%N].
Definition tr : jsstring := [9488%N].
Definition bl : jsstring := [9492%N].
Definition br : jsstring := [9496%N].
Definition ml : jsstring := [9500%N].
Definition mr : jsstring := [9508%N].
Definition mt : jsstring := [9516%N].
Definition mb : jsstring := [9524%N].
Definition mm : jsstring := [9532%N].
Definition newline : jsstring := [10%N].

(** Column widths based on tier. *)
Definition colDate : nat := 12.
Definition colModels (tier : TableWidthTier) : nat :=
  if tier_eqb tier wide then 30 else 0.
Definition colTotal (tier : TableWidthTier) : nat :=
  if negb (tier_eqb tier narrow) then 12 else 0.
Definition colCost : nat := 10.

Definition padRight (str : jsstring) (len : nat) : jsstring := padEnd str len.
Definition padLeft (str : jsstring) (len : nat) : jsstring := padStart str len.

Section WithNumberFormat.

(** [Number.prototype.toFixed], [Number.prototype.toString] and
    [String.prototype.localeCompare] belong to the runtime. *)
Variable toFixed : Q -> nat -> jsstring.
Variable toString : Q -> jsstring.
Variable localeCompare : jsstring -> jsstring -> Z.

Definition formatNumber (num : Q) : jsstring :=
  if Qle_bool 1000000 num then toFixed (num / 1000000) 1 ++ lit "M"
  else if Qle_bool 1000 num then toFixed (num / 1000) 1 ++ lit "K"
  else toString num.

Definition formatCost (cost : Q) : jsstring :=
  lit "$" ++ toFixed cost 2.

(** The state the [for (const date of sortedDates)] loop updates. *)
Record LoopState : Type := {
  st_output : jsstring;
  st_totalInput : Q;
  st_totalOutput : Q;
  st_totalCost : Q
}.

(** The body of the loop.  [dailyStats.get(date)!] cannot miss, since
    [date] is one of the keys; the state is left alone if it did. *)
Definition loopBody (dailyStats : list (jsstring * DailyStats))
    (tier : TableWidthTier) (st : LoopState) (date : jsstring) : LoopState :=
  match Map_get date dailyStats with
  | None => st
  | Some stats =>
      let combinedInput := input stats + cacheRead stats + cacheWrite stats in
      let totalTokens := combinedInput + output stats in
      let totalInput := st_totalInput st + combinedInput in
      let totalOutput := st_totalOutput st + output stats in
      let totalCost := st_totalCost st + cost stats in
      let row := v ++ padRight (lit " " ++ date) colDate in
      let row :=
        if tier_eqb tier wide then
          let models := sort compare_units (models stats) in
          let firstModel :=
            match models with
            | m :: _ => if eqb m [] then [] else substring0 28 m
            | [] => []
            end in
          row ++ v ++ padRight (lit " " ++ firstModel) (colModels tier)
        else row in
      let row :=
        if negb (tier_eqb tier narrow) then
          row ++ v ++ padLeft (formatNumber totalTokens ++ lit " ")
                        (colTotal tier)
        else row in
      let row :=
        row ++ v ++ padLeft (formatCost (cost stats) ++ lit " ") colCost ++ v in
      {| st_output := st_output st ++ row ++ newline;
         st_totalInput := totalInput;
         st_totalOutput := totalOutput;
         st_totalCost := totalCost |}
  end.

Definition renderUsageTable (dailyStats : list (jsstring * DailyStats))
    (width : option Z) : jsstring :=
  let sortedDates := sort localeCompare (map fst dailyStats) in
  if (List.length sortedDates =? 0)%nat then lit "No usage data"
  else
    let tier :=
      match width with
      | Some w => if (w =? 0)%Z then wide else getTableWidthTier w
      | None => wide
      end in
    let output := [] in
    (* Build borders *)
    let topLine := tl ++ repeat_str h colDate in
    let midLine := ml ++ repeat_str h colDate in
    let bottomLine := bl ++ repeat_str h colDate in
    let '(topLine, midLine, bottomLine) :=
      if tier_eqb tier wide then
        (topLine ++ mt ++ repeat_str h (colModels tier),
         midLine ++ mm ++ repeat_str h (colModels tier),
         bottomLine ++ mb ++ repeat_str h (colModels tier))
      else (topLine, midLine, bottomLine) in
    let '(topLine, midLine, bottomLine) :=
      if negb (tier_eqb tier narrow) then
        (topLine ++ mt ++ repeat_str h (colTotal tier),
         midLine ++ mm ++ repeat_str h (colTotal tier),
         bottomLine ++ mb ++ repeat_str h (colTotal tier))
      else (topLine, midLine, bottomLine) in
    let topLine := topLine ++ mt ++ repeat_str h colCost ++ tr in
    let midLine := midLine ++ mm ++ repeat_str h colCost ++ mr in
    let bottomLine := bottomLine ++ mb ++ repeat_str h colCost ++ br in
    (* Build header *)
    let header := v ++ padRight (lit " Date") colDate in
    let header :=
      if tier_eqb tier wide
      then header ++ v ++ padRight (lit " Models") (colModels tier)
      else header in
    let header :=
      if negb (tier_eqb tier narrow)
      then header ++ v ++ padLeft (lit "Tokens ") (colTotal tier)
      else header in
    let header := header ++ v ++ padLeft (lit "Cost ") colCost ++ v in
    let output := output ++ topLine ++ newline in
    let output := output ++ header ++ newline in
    let output := output ++ midLine ++ newline in
    let st :=
      fold_left (loopBody dailyStats tier) sortedDates
        {| st_output := output;
           st_totalInput := 0;
           st_totalOutput := 0;
           st_totalCost := 0 |} in
    let output := st_output st in
    let output := output ++ midLine ++ newline in
    let grandTotal := st_totalInput st + st_totalOutput st in
    let totalRow := v ++ padRight (lit " Total") colDate in
    let totalRow :=
      if tier_eqb tier wide
      then totalRow ++ v ++ repeat_str (lit " ") (colModels tier)
      else totalRow in
    let totalRow :=
      if negb (tier_eqb tier narrow)
      then totalRow ++ v ++ padLeft (formatNumber grandTotal ++ lit " ")
                             (colTotal tier)
      else totalRow in
    let totalRow :=
      totalRow ++ v ++ padLeft (formatCost (st_totalCost st) ++ lit " ") colCost
      ++ v in
    let output := output ++ totalRow ++ newline in
    let output := output ++ bottomLine in
    output.

End WithNumberFormat.

End UsageTable.

(* ===================================================================== *)
(** ** Vocabulary and fixtures for the SQLite loader *)
(* ===================================================================== *)

Module LoaderSpec.

Import Loader.

(** The larger of the cursor and every creation time in [rows]. *)
Definition maxCreated (rows : list MessageRow) (start : Z) : Z :=
  fold_right Z.max start (map time_created rows).

(** The rows the incremental [SELECT] returns. *)
Definition newerThan (c : CursorState) (rows : list MessageRow)
  : list MessageRow :=
  filter (fun r => time_created r >? lastTimestamp c) rows.

(** What the [catch] branch of [loadMessagesIncremental] returns. *)
Definition unchanged (c : CursorState) : LoadResult :=
  {| messages := []; cursor := {| lastTimestamp := lastTimestamp c |} |}.

Definition incrementalErrorLine (err : Thrown) : string :=
  "Error in incremental load: " ++ String_of err.

Section WithParser.

Variable JSON_parse : string -> Outcome MessageData.

(** Decoding a list of rows without the monad: the first row that does
    not decode decides. *)
Fixpoint decodeRows (rows : list MessageRow) : Outcome (list MessageJson) :=
  match rows with
  | [] => Returned []
  | row :: rows' =>
      match JSON_parse (data row) with
      | Threw err => Threw err
      | Returned d =>
          match decodeRows rows' with
          | Threw err => Threw err
          | Returned msgs =>
              Returned ({| id := row_id row;
                           sessionID := session_id row;
                           role := d_role d;
                           model := d_model d;
                           providerID := d_providerID d;
                           tokens := d_tokens d;
                           time := d_time d |} :: msgs)
          end
      end
  end.

(** The ways a read of the store fails: the database does not open, the
    query throws, or a row that the query returns does not decode. *)
Inductive storeFailure (c : CursorState) : Storage -> Thrown -> Prop :=
| open_throws (err : Thrown) :
    storeFailure c (Unreachable err) err
| query_throws (err : Thrown) :
    storeFailure c (Opened (Malformed err)) err
| decode_throws (rows : list MessageRow) (err : Thrown) :
    decodeRows (newerThan c rows) = Threw err ->
    storeFailure c (Opened (MessageTable rows)) err.

(** The message a row decodes to is accepted by the validity filter. *)
Definition acceptedRow (pf : option string) (row : MessageRow) : bool :=
  match decodeRows [row] with
  | Returned [msg] => isValidMessage msg pf
  | _ => false
  end.

(** The checkpoint as the specification words it: the larger of the input
    checkpoint and the creation times of the accepted records. *)
Definition checkpointOverAccepted (rows : list MessageRow) (c : CursorState)
    (pf : option string) : Z :=
  maxCreated (filter (acceptedRow pf) (newerThan c rows)) (lastTimestamp c).

End WithParser.

(** *** Fixtures of the loader tests *)

Definition assistantData (providerID : string) (created : Z) : MessageData :=
  {| d_role := "assistant";
     d_model := Some {| model_providerID := providerID;
                        model_modelID := "claude-3-5-sonnet" |};
     d_providerID := None;
     d_tokens := Some {| tok_input := 100; tok_output := 50;
                         tok_reasoning := 0;
                         tok_cache_read := 0; tok_cache_write := 0 |};
     d_time := Some {| time_created_ms := created;
                       time_completed_ms := Some (created + 1000) |} |}.

Definition userData : MessageData :=
  {| d_role := "user";
     d_model := None;
     d_providerID := None;
     d_tokens := Some {| tok_input := 100; tok_output := 0;
                         tok_reasoning := 0;
                         tok_cache_read := 0; tok_cache_write := 0 |};
     d_time := None |}.

Definition noTokensData : MessageData :=
  {| d_role := "assistant";
     d_model := Some {| model_providerID := "anthropic";
                        model_modelID := "claude-3-5-sonnet" |};
     d_providerID := None;
     d_tokens := None;
     d_time := None |}.

(** The decoder on the fixture rows.  The [data] column of a fixture row
    is written as a short key that stands for the JSON text of the
    fixture; any other text is not JSON. *)
Definition fixtureParse (text : string) : Outcome MessageData :=
  if (text =? "assistant anthropic 1000")%string
  then Returned (assistantData "anthropic" 1000)
  else if (text =? "assistant anthropic 2000")%string
  then Returned (assistantData "anthropic" 2000)
  else if (text =? "assistant openai 2000")%string
  then Returned (assistantData "openai" 2000)
  else if (text =? "assistant anthropic 3000")%string
  then Returned (assistantData "anthropic" 3000)
  else if (text =? "user")%string then Returned userData
  else if (text =? "assistant without tokens")%string
  then Returned noTokensData
  else Threw (ErrorObject "SyntaxError" "JSON Parse error: Unexpected token").

Definition fixtureRow (id session : string) (text : string) (created : Z)
  : MessageRow :=
  {| row_id := id; session_id := session;
     time_created := created; data := text |}.

Definition fixtureMessage (id session : string) (d : MessageData)
  : MessageJson :=
  {| id := id; sessionID := session; role := d_role d; model := d_model d;
     providerID := d_providerID d; tokens := d_tokens d; time := d_time d |}.

(** Two assistant messages, as in "on first call loads all messages". *)
Definition twoMessages : Storage :=
  Opened (MessageTable
            [fixtureRow "msg-1" "ses-1" "assistant anthropic 1000" 1000;
             fixtureRow "msg-2" "ses-1" "assistant anthropic 2000" 2000]).

(** The same store after a third message has been written, as in
    "on second call returns only NEW messages". *)
Definition threeMessages : Storage :=
  Opened (MessageTable
            [fixtureRow "msg-1" "ses-1" "assistant anthropic 1000" 1000;
             fixtureRow "msg-2" "ses-1" "assistant anthropic 2000" 2000;
             fixtureRow "msg-3" "ses-1" "assistant anthropic 3000" 3000]).

(** A user message, a message without tokens and an assistant message. *)
Definition mixedRoles : Storage :=
  Opened (MessageTable
            [fixtureRow "user-1" "ses-1" "user" 1000;
             fixtureRow "no-tokens" "ses-1" "assistant without tokens" 1500;
             fixtureRow "asst-1" "ses-1" "assistant anthropic 2000" 2000]).

(** An assistant message followed by a later user message. *)
Definition assistantThenUser : list MessageRow :=
  [fixtureRow "asst-1" "ses-1" "assistant anthropic 1000" 1000;
   fixtureRow "user-1" "ses-1" "user" 2000].

(** A row whose [data] is not JSON. *)
Definition brokenRow : Storage :=
  Opened (MessageTable [fixtureRow "bad" "ses-1" "{ invalid json" 1000]).

End LoaderSpec.

(* ===================================================================== *)
(** ** Vocabulary and fixtures for the validity filter *)
(* ===================================================================== *)

Module FilterSpec.

(** The provider id a record is matched by: the model's, else the
    record's own, else ["unknown"]. *)
Definition recordProviderId (msg : MessageJson) : string :=
  match model msg with
  | Some m => model_providerID m
  | None =>
      match providerID msg with
      | Some p => p
      | None => "unknown"
      end
  end.

(** The ways of loading messages. *)
Inductive LoadPath : Type :=
| ViaLoadMessages (s : Loader.Storage)
| ViaLoadRecentMessages (now : Z) (s : Loader.Storage) (hoursBack : option Z)
| ViaLoadMessagesIncremental (s : Loader.Storage) (c : CursorState)
| ViaDirectoryScan (s : FileLoader.Storage).

Section WithParsers.

Variable JSON_parse : string -> Outcome MessageData.
Variable JSON_parse_file : string -> Outcome (option MessageJson).

(** The message list a load path hands to its caller. *)
Definition loadVia (path : LoadPath) (pf : option string)
  : M (list MessageJson) :=
  match path with
  | ViaLoadMessages s => Loader.loadMessages JSON_parse s pf
  | ViaLoadRecentMessages now s hoursBack =>
      Loader.loadRecentMessages JSON_parse now s hoursBack pf
  | ViaLoadMessagesIncremental s c =>
      r <- Loader.loadMessagesIncremental JSON_parse s c pf ;;
      ret (Loader.messages r)
  | ViaDirectoryScan s => FileLoader.loadMessages JSON_parse_file s pf
  end.

End WithParsers.

(** *** Fixtures *)

Definition mixedCaseRecord : MessageJson :=
  LoaderSpec.fixtureMessage "msg-1" "ses-1"
    (LoaderSpec.assistantData "Anthropic" 1000).

Definition lowerCaseRecord : MessageJson :=
  LoaderSpec.fixtureMessage "msg-1" "ses-1"
    (LoaderSpec.assistantData "anthropic" 1000).

Definition userRecord : MessageJson :=
  LoaderSpec.fixtureMessage "user-1" "session-1" LoaderSpec.userData.

Definition noTokensRecord : MessageJson :=
  LoaderSpec.fixtureMessage "no-tokens" "session-1" LoaderSpec.noTokensData.

(** The file decoder on the fixture files; the text of a fixture file is
    written as a short key that stands for its JSON. *)
Definition fixtureParseFile (text : string) : Outcome (option MessageJson) :=
  if (text =? "user-1")%string then Returned (Some userRecord)
  else if (text =? "no-tokens")%string then Returned (Some noTokensRecord)
  else if (text =? "msg-1")%string then Returned (Some lowerCaseRecord)
  else if (text =? "null")%string then Returned None
  else Threw (ErrorObject "SyntaxError" "JSON Parse error: Unexpected token").

(** One session directory with a user message, a message without tokens,
    an assistant message, a file that is not JSON and a file of another
    kind; and a plain file next to the session directory. *)
Definition fixtureDirectory : FileLoader.Storage :=
  Returned
    [ {| FileLoader.dir_name := "session-1";
         FileLoader.dir_isDirectory := Returned true;
         FileLoader.dir_listing :=
           Returned
             [ {| FileLoader.file_name := "user-1.json";
                  FileLoader.file_content := Returned "user-1" |};
               {| FileLoader.file_name := "no-tokens.json";
                  FileLoader.file_content := Returned "no-tokens" |};
               {| FileLoader.file_name := "msg-1.json";
                  FileLoader.file_content := Returned "msg-1" |};
               {| FileLoader.file_name := "invalid.json";
                  FileLoader.file_content := Returned "{ invalid json" |};
               {| FileLoader.file_name := "notes.txt";
                  FileLoader.file_content := Returned "user-1" |} ] |};
      {| FileLoader.dir_name := ".DS_Store";
         FileLoader.dir_isDirectory := Returned false;
         FileLoader.dir_listing :=
           Threw (ErrorObject "Error" "ENOTDIR: not a directory") |} ].

End FilterSpec.

(* ===================================================================== *)
(** ** Vocabulary and fixtures for the Codex quota source *)
(* ===================================================================== *)

Module CodexSpec.

Import Codex.
Local Open Scope Q_scope.

(** The request [loadCodexQuota] sends for a token. *)
Definition requestFor (token : option string) : Request :=
  {| url := CODEX_API_URL;
     method := "GET";
     authorization :=
       ("Bearer " ++ match token with Some t => t | None => "" end)%string;
     content_type := "application/json" |}.

(** The rate-limit windows of a response body, each with the label its
    snapshot gets, in the order the loader reads them. *)
Definition labelledWindows (d : CodexUsageResponse) : list (string * Window) :=
  (match rate_limit d with
   | Some r =>
       match primary_window r with
       | Some w => [("Codex - 5h Limit"%string, w)]
       | None => []
       end
   | None => []
   end ++
   match rate_limit d with
   | Some r =>
       match secondary_window r with
       | Some w => [("Codex - Weekly"%string, w)]
       | None => []
       end
   | None => []
   end ++
   match code_review_rate_limit d with
   | Some r =>
       match primary_window r with
       | Some w => [("Codex - Code Review"%string, w)]
       | None => []
       end
   | None => []
   end)%list.

(** The windows the loader gets to read for a token: those of the body
    of a successful response, none in every other case. *)
Definition windowsRead (fetch : Network) (token : option string)
  : list (string * Window) :=
  if negb (truthy_string token) then []
  else
    match fetch (requestFor token) with
    | Returned response =>
        if negb (ok response) then []
        else
          match json response with
          | Returned (Some d) => labelledWindows d
          | _ => []
          end
    | Threw _ => []
    end.

Definition windowSnapshot (lw : string * Window) : QuotaSnapshot :=
  {| source := "codex";
     label := fst lw;
     used := used_percent (snd lw) / 100;
     resetAt := Some (reset_at (snd lw));
     error := None |}.

Definition errorSnapshot (message : string) : QuotaSnapshot :=
  {| source := "codex"; label := "Codex"; used := 0;
     resetAt := None; error := Some message |}.

(** The reason reported when no window was read. *)
Definition failureReason (fetch : Network) (token : option string) : string :=
  if negb (truthy_string token) then "No --codex-token provided"%string
  else
    match fetch (requestFor token) with
    | Threw (ErrorObject _ message) => ("Request failed: " ++ message)%string
    | Threw (NonError _) => "Request failed: Unknown error"%string
    | Returned response =>
        if negb (ok response)
        then ("API error: " ++ Number_toString (status response))%string
        else
          match json response with
          | Threw (ErrorObject _ message) =>
              ("Request failed: " ++ message)%string
          | Threw (NonError _) => "Request failed: Unknown error"%string
          | Returned None => "Request failed: null is not an object"%string
          | Returned (Some _) => "No rate limit data"%string
          end
    end.

(** *** Fixtures *)

(** A network that answers with a 5-hour window at 48 percent and a
    weekly window at 7.5 percent. *)
Definition fixtureNetwork : Network :=
  fun request =>
    Returned
      {| ok := true;
         status := 200;
         json :=
           Returned
             (Some {| rate_limit :=
                        Some {| primary_window :=
                                  Some {| used_percent := 48;
                                          reset_at := 1770000000 |};
                                secondary_window :=
                                  Some {| used_percent := 15 # 2;
                                          reset_at := 1770500000 |} |};
                      code_review_rate_limit := None |}) |}.

Definition fixtureSnapshots : list QuotaSnapshot :=
  [ {| source := "codex"; label := "Codex - 5h Limit";
       used := 48 / 100; resetAt := Some 1770000000; error := None |};
    {| source := "codex"; label := "Codex - Weekly";
       used := (15 # 2) / 100; resetAt := Some 1770500000; error := None |} ].

Definition unauthorisedNetwork : Network :=
  fun request =>
    Returned {| ok := false; status := 401;
                json := Threw (NonError "unread") |}.

(** A valid used fraction, as the specification words it: a number
    between 0 and 1. *)
Definition validUsedFraction (u : Q) : Prop := 0 <= u /\ u <= 1.

(** A network that answers with a 5-hour window at 150 percent and a
    weekly window at 20 percent. *)
Definition overLimitNetwork : Network :=
  fun request =>
    Returned
      {| ok := true;
         status := 200;
         json :=
           Returned
             (Some {| rate_limit :=
                        Some {| primary_window :=
                                  Some {| used_percent := 150;
                                          reset_at := 1770000000 |};
                                secondary_window :=
                                  Some {| used_percent := 20;
                                          reset_at := 1770500000 |} |};
                      code_review_rate_limit := None |}) |}.

End CodexSpec.

(* ===================================================================== *)
(** ** Vocabulary and fixtures for the usage table *)
(* ===================================================================== *)

Module TableSpec.

Import UStr UsageTable.
Local Open Scope list_scope.
Local Open Scope Q_scope.

(** The columns a table can have, left to right. *)
Inductive Column : Type := ColDate | ColModels | ColTokens | ColCost.

(** The tests of the renderer: the models column under
    [tier === "wide"], the token count under [tier !== "narrow"]. *)
Definition shown (tier : TableWidthTier) (c : Column) : bool :=
  match c with
  | ColDate => true
  | ColModels => tier_eqb tier wide
  | ColTokens => negb (tier_eqb tier narrow)
  | ColCost => true
  end.

Definition columnsOf (tier : TableWidthTier) : list Column :=
  filter (shown tier) [ColDate; ColModels; ColTokens; ColCost].

Definition columnWidth (c : Column) : nat :=
  match c with
  | ColDate => 12
  | ColModels => 30
  | ColTokens => 12
  | ColCost => 10
  end.

(** The tier [renderUsageTable] works in. *)
Definition tierOf (width : option Z) : TableWidthTier :=
  match width with
  | Some w => if (w =? 0)%Z then wide else getTableWidthTier w
  | None => wide
  end.

(** The first model in the order of the default sort; the empty string
    for an empty set. *)
Definition leastModel (ms : list jsstring) : jsstring :=
  hd [] (sort compare_units ms).

(** The order the specification names, alphabetical: letter by letter
    whatever the case of the letters.  It follows the specification's
    words and is compared with [compare_units], the order the code sorts
    in. *)
Definition lowerUnit (u : N) : N :=
  if ((65 <=? u) && (u <=? 90))%N then (u + 32)%N else u.

Definition compare_alphabetical (a b : jsstring) : Z :=
  compare_units (map lowerUnit a) (map lowerUnit b).

Definition alphabeticallyFirst (ms : list jsstring) : jsstring :=
  hd [] (sort compare_alphabetical ms).

(** No code unit of the string is an upper-case letter. *)
Definition noUpperCase (m : jsstring) : Prop :=
  Forall (fun u => (u < 65)%N \/ (90 < u)%N) m.

(** A day's aggregate with every model but the first one dropped. *)
Definition onlyLeastModel (s : DailyStats) : DailyStats :=
  {| date := date s;
     models := match sort compare_units (models s) with
               | m :: _ => [m]
               | [] => []
               end;
     providers := providers s;
     providerStats := providerStats s;
     input := input s;
     output := output s;
     cacheWrite := cacheWrite s;
     cacheRead := cacheRead s;
     reasoning := reasoning s;
     cost := cost s |}.

(** A line made of cells: [left], the cells separated by [sep], [right]. *)
Definition joinCells (left sep right : jsstring) (cells : list jsstring)
  : jsstring :=
  match cells with
  | [] => left ++ right
  | c :: cs =>
      left ++ c ++ fold_right (fun cell rest => sep ++ cell ++ rest) right cs
  end.

(** The entries of the map for the given dates, in that order. *)
Definition entriesOf (dailyStats : list (jsstring * DailyStats))
    (dates : list jsstring) : list (jsstring * DailyStats) :=
  flat_map
    (fun d => match Map_get d dailyStats with
              | Some s => [(d, s)]
              | None => []
              end)
    dates.

(** Running totals: combined input, output, cost. *)
Definition addDay (totals : Q * Q * Q) (e : jsstring * DailyStats)
  : Q * Q * Q :=
  let '(totalInput, totalOutput, totalCost) := totals in
  let s := snd e in
  (totalInput + (input s + cacheRead s + cacheWrite s),
   totalOutput + output s,
   totalCost + cost s).

Definition borderCell (c : Column) : jsstring :=
  repeat_str h (columnWidth c).

Definition headerCell (c : Column) : jsstring :=
  match c with
  | ColDate => padRight (lit " Date") (columnWidth c)
  | ColModels => padRight (lit " Models") (columnWidth c)
  | ColTokens => padLeft (lit "Tokens ") (columnWidth c)
  | ColCost => padLeft (lit "Cost ") (columnWidth c)
  end.

Section WithNumberFormat.

Variable toFixed : Q -> nat -> jsstring.
Variable toString : Q -> jsstring.

Definition dayCell (e : jsstring * DailyStats) (c : Column) : jsstring :=
  let s := snd e in
  match c with
  | ColDate => padRight (lit " " ++ fst e) (columnWidth c)
  | ColModels =>
      padRight (lit " " ++ substring0 28 (leastModel (models s)))
        (columnWidth c)
  | ColTokens =>
      padLeft
        (formatNumber toFixed toString
           (input s + cacheRead s + cacheWrite s + output s) ++ lit " ")
        (columnWidth c)
  | ColCost =>
      padLeft (formatCost toFixed (cost s) ++ lit " ") (columnWidth c)
  end.

Definition totalCell (totals : Q * Q * Q) (c : Column) : jsstring :=
  let '(totalInput, totalOutput, totalCost) := totals in
  match c with
  | ColDate => padRight (lit " Total") (columnWidth c)
  | ColModels => repeat_str (lit " ") (columnWidth c)
  | ColTokens =>
      padLeft
        (formatNumber toFixed toString (totalInput + totalOutput) ++ lit " ")
        (columnWidth c)
  | ColCost =>
      padLeft (formatCost toFixed totalCost ++ lit " ") (columnWidth c)
  end.

Definition dayLine (cols : list Column) (e : jsstring * DailyStats)
  : jsstring :=
  joinCells v v v (map (dayCell e) cols).

(** A table over the columns [cols]: top border, header, rule, one line
    per entry, rule, totals, bottom border; every line has one cell per
    column. *)
Definition tableOver (cols : list Column)
    (entries : list (jsstring * DailyStats)) : jsstring :=
  List.concat
    (map (fun line => line ++ newline)
       ([joinCells tl mt tr (map borderCell cols);
         joinCells v v v (map headerCell cols);
         joinCells ml mm mr (map borderCell cols)]
        ++ map (dayLine cols) entries
        ++ [joinCells ml mm mr (map borderCell cols);
            joinCells v v v
              (map (totalCell (fold_left addDay entries (0, 0, 0))) cols)]))
  ++ joinCells bl mb br (map borderCell cols).

End WithNumberFormat.

(** *** Number formatting on exact decimals, and the test fixtures *)

(** [x.toFixed(d)]: the nearest multiple of [10^-d], the larger one on a
    tie, written with [d] decimals. *)
Definition toFixedExact (x : Q) (d : nat) : jsstring :=
  let negative := negb (Qle_bool 0 x) in
  let x := if negative then - x else x in
  let n := Qfloor (x * inject_Z (10 ^ Z.of_nat d) + (1 # 2)) in
  let digits := list_ascii_of_string (NilZero.string_of_int (Z.to_int n)) in
  let digits := repeat "0"%char (d + 1 - List.length digits) ++ digits in
  let whole := firstn (List.length digits - d) digits in
  let fraction := skipn (List.length digits - d) digits in
  map N_of_ascii
    ((if negative then ["-"%char] else [])
     ++ whole
     ++ (if (d =? 0)%nat then [] else "."%char :: fraction)).

(** [x.toString()] for an integer [x], which token counts are. *)
Definition toStringInteger (x : Q) : jsstring :=
  lit (NilZero.string_of_int (Z.to_int (Qfloor x))).

Definition day (d : string) (ms : list string) (tokensIn tokensOut : Z)
    (c : Q) : jsstring * DailyStats :=
  (lit d,
   {| date := lit d;
      models := map lit ms;
      providers := [];
      providerStats := [];
      input := inject_Z tokensIn;
      output := inject_Z tokensOut;
      cacheWrite := 0;
      cacheRead := 0;
      reasoning := 0;
      cost := c |}).

(** The day of "should render single day data (wide)", with a second
    and a third model added to its set. *)
Definition februaryStats : list (jsstring * DailyStats) :=
  [day "2025-02-11" ["gpt-4o"; "claude-opus-4-5"; "claude-sonnet-4"]
     1000000 500000 (12345 # 100)].

(** A day whose model set has an id that starts with a capital. *)
Definition mixedCaseStats : list (jsstring * DailyStats) :=
  [day "2025-02-11" ["claude-sonnet-4"; "MiniMax-M2"; "gpt-5"]
     1000000 500000 (12345 # 100)].

(** A day whose first model id has 47 code units. *)
Definition longNameStats : list (jsstring * DailyStats) :=
  [day "2025-02-11"
     ["qwen3-coder"; "openrouter/anthropic/claude-3-5-sonnet-20241022"]
     1000000 500000 (12345 # 100)].

End TableSpec.

(* ===================================================================== *)
(** ** The configuration commands ([showConfig]) *)
(* ===================================================================== *)

(** The command that prints the stored Codex token, masked.  The
    configuration that [loadConfig()] resolves to and the path that
    [getConfigPath()] returns come from [config.ts], which is not among
    the sources: they are arguments.  [console.log] appends a line to the
    standard output. *)
Module ConfigCommands.

Import UStr.
Local Open Scope list_scope.

(** The part of the configuration object that [showConfig] reads. *)
Record Config : Type := { codexToken : option jsstring }.

Definition Stdout : Type := list jsstring.

Definition console_log (line : jsstring) (stdout : Stdout) : Stdout :=
  stdout ++ [line].

(** [s.substring(start)]; a negative start counts as zero, which the
    subtraction on [nat] gives. *)
Definition substringFrom (start : nat) (s : jsstring) : jsstring :=
  skipn start s.

(** The [maskedToken] constant of [showConfig]. *)
Definition maskedToken (codexToken : jsstring) : jsstring :=
  substring0 8 codexToken
  ++ lit "..."
  ++ substringFrom (List.length codexToken - 4) codexToken.

Definition showConfig (config : Config) (configPath : jsstring)
    (stdout : Stdout) : Stdout :=
  let stdout :=
    console_log ([10%N] ++ lit "Configuration file: " ++ configPath ++ [10%N])
      stdout in
  let stdout :=
    match codexToken config with
    | Some token =>
        if eqb token [] then console_log (lit "  codexToken: (not set)") stdout
        else console_log (lit "  codexToken: " ++ maskedToken token) stdout
    | None => console_log (lit "  codexToken: (not set)") stdout
    end in
  console_log [] stdout.

End ConfigCommands.

(** The later [showConfig], which reports whether [~/.codex/auth.json]
    holds an access token.  What [readFile] gives for that path is an
    argument; [JSON.parse] with the cast to the shape read is a
    parameter, [None] being the JSON value [null]. *)
Module ConfigAuth.

Import UStr.
Local Open Scope list_scope.

Record AuthTokens : Type := { access_token : option jsstring }.

Record AuthJson : Type := { tokens : option AuthTokens }.

Definition Stdout : Type := list jsstring.

Definition console_log (line : jsstring) (stdout : Stdout) : Stdout :=
  stdout ++ [line].

Section WithParser.

Variable JSON_parse : jsstring -> Outcome (option AuthJson).

(** The body of the [try] block: the value [hasCodexAuth] gets, or the
    throw that the empty [catch] swallows. *)
Definition readCodexAuth (authFile : Outcome jsstring) : Outcome bool :=
  match authFile with
  | Threw err => Threw err
  | Returned content =>
      match JSON_parse content with
      | Threw err => Threw err
      | Returned None =>
          Threw (ErrorObject "TypeError" "null is not an object")
      | Returned (Some auth) =>
          Returned
            (match tokens auth with
             | Some t =>
                 match access_token t with
                 | Some a => negb (eqb a [])
                 | None => false
                 end
             | None => false
             end)
      end
  end.

Definition showConfig (configPath : jsstring) (authFile : Outcome jsstring)
    (stdout : Stdout) : Stdout :=
  let stdout :=
    console_log ([10%N] ++ lit "Configuration file: " ++ configPath) stdout in
  let hasCodexAuth := false in
  let hasCodexAuth :=
    match readCodexAuth authFile with
    | Returned b => b
    | Threw _ => hasCodexAuth
    end in
  let stdout :=
    console_log
      (lit "  Codex auth: "
       ++ (if hasCodexAuth then lit "~/.codex/auth.json (auto)"
           else lit "(not found " ++ [8212%N] ++ lit " run: codex login)"))
      stdout in
  console_log [] stdout.

End WithParser.

End ConfigAuth.

(* ===================================================================== *)
(** ** Further vocabulary for the loaders *)
(* ===================================================================== *)

Module LoaderMore.

Import Loader LoaderSpec FilterSpec.

(** The message [rowToMessage] builds from a row and its decoded data. *)
Definition messageOfRow (row : MessageRow) (d : MessageData) : MessageJson :=
  {| id := row_id row;
     sessionID := session_id row;
     role := d_role d;
     model := d_model d;
     providerID := d_providerID d;
     tokens := d_tokens d;
     time := d_time d |}.

(** The cutoff of [loadRecentMessages], in milliseconds. *)
Definition recentCutoff (now : Z) (hoursBack : option Z) : Z :=
  now - match hoursBack with Some h => h | None => 24 end * 60 * 60 * 1000.

(** The directory entries whose files [loadMessages] reads: directories
    only, and in them the names that end in [.json]. *)
Definition jsonFilesOf (sessionDirs : list FileLoader.DirEntry)
  : list FileLoader.FileEntry :=
  flat_map
    (fun dir =>
       match FileLoader.dir_isDirectory dir, FileLoader.dir_listing dir with
       | Returned true, Returned listing =>
           filter (fun f => endsWith (FileLoader.file_name f) ".json") listing
       | _, _ => []
       end)
    sessionDirs.

(** Scanning the session directories throws [err]: the first entry, in
    order, whose [statSync] throws, or which is a directory whose
    [readdirSync] throws. *)
Inductive scanThrows : list FileLoader.DirEntry -> Thrown -> Prop :=
| stat_throws (dir : FileLoader.DirEntry) (rest : list FileLoader.DirEntry)
    (err : Thrown) :
    FileLoader.dir_isDirectory dir = Threw err ->
    scanThrows (dir :: rest) err
| listing_throws (dir : FileLoader.DirEntry)
    (rest : list FileLoader.DirEntry) (err : Thrown) :
    FileLoader.dir_isDirectory dir = Returned true ->
    FileLoader.dir_listing dir = Threw err ->
    scanThrows (dir :: rest) err
| later_throws_after_file (dir : FileLoader.DirEntry)
    (rest : list FileLoader.DirEntry) (err : Thrown) :
    FileLoader.dir_isDirectory dir = Returned false ->
    scanThrows rest err ->
    scanThrows (dir :: rest) err
| later_throws_after_directory (dir : FileLoader.DirEntry)
    (rest : list FileLoader.DirEntry) (listing : list FileLoader.FileEntry)
    (err : Thrown) :
    FileLoader.dir_isDirectory dir = Returned true ->
    FileLoader.dir_listing dir = Returned listing ->
    scanThrows rest err ->
    scanThrows (dir :: rest) err.

(** Every entry can be examined: [statSync] answers, and every directory
    can be listed. *)
Definition scanSucceeds (sessionDirs : list FileLoader.DirEntry) : Prop :=
  Forall
    (fun dir =>
       FileLoader.dir_isDirectory dir = Returned false
       \/ (FileLoader.dir_isDirectory dir = Returned true
           /\ exists listing, FileLoader.dir_listing dir = Returned listing))
    sessionDirs.

Section WithParsers.

Variable JSON_parse : string -> Outcome MessageData.
Variable JSON_parse_file : string -> Outcome (option MessageJson).

(** A [SELECT ... WHERE where_] read of the store fails with [err]. *)
Inductive queryFailure (where_ : MessageRow -> bool)
  : Storage -> Thrown -> Prop :=
| query_open_throws (err : Thrown) :
    queryFailure where_ (Unreachable err) err
| query_all_throws (err : Thrown) :
    queryFailure where_ (Opened (Malformed err)) err
| query_decode_throws (rows : list MessageRow) (err : Thrown) :
    decodeRows JSON_parse (filter where_ rows) = Threw err ->
    queryFailure where_ (Opened (MessageTable rows)) err.

(** What a message file contributes: its message, or nothing when it
    cannot be read, is not JSON, or is [null]. *)
Definition decodeFile (f : FileLoader.FileEntry) : option MessageJson :=
  match FileLoader.file_content f with
  | Returned content =>
      match JSON_parse_file content with
      | Returned r => r
      | Threw _ => None
      end
  | Threw _ => None
  end.

(** A load path fails with [err]. *)
Definition pathFailure (path : LoadPath) (err : Thrown) : Prop :=
  match path with
  | ViaLoadMessages s => queryFailure (fun _ => true) s err
  | ViaLoadRecentMessages now s hoursBack =>
      queryFailure
        (fun r => time_created r >=? recentCutoff now hoursBack) s err
  | ViaLoadMessagesIncremental s c =>
      queryFailure (fun r => time_created r >? lastTimestamp c) s err
  | ViaDirectoryScan s =>
      match s with
      | Threw e => e = err
      | Returned sessionDirs => scanThrows sessionDirs err
      end
  end.

End WithParsers.

(** The prefix of the line a load path logs on failure. *)
Definition pathErrorPrefix (path : LoadPath) : string :=
  match path with
  | ViaLoadMessages _ => "Error reading messages from database: "
  | ViaLoadRecentMessages _ _ _ => "Error reading recent messages: "
  | ViaLoadMessagesIncremental _ _ => "Error in incremental load: "
  | ViaDirectoryScan _ => "Error reading messages directory: "
  end.

(** *** Fixtures *)

(** A session directory that cannot be listed, after a good one. *)
Definition unlistableDirectory : FileLoader.Storage :=
  Returned
    [ {| FileLoader.dir_name := "session-1";
         FileLoader.dir_isDirectory := Returned true;
         FileLoader.dir_listing :=
           Returned
             [ {| FileLoader.file_name := "msg-1.json";
                  FileLoader.file_content := Returned "msg-1" |} ] |};
      {| FileLoader.dir_name := "session-2";
         FileLoader.dir_isDirectory := Returned true;
         FileLoader.dir_listing :=
           Threw (ErrorObject "Error" "EACCES: permission denied") |} ].

(** Rows written after the first load of [twoMessages]. *)
Definition laterRows : list MessageRow :=
  [fixtureRow "msg-3" "ses-1" "assistant anthropic 3000" 3000;
   fixtureRow "user-2" "ses-1" "user" 3500].

Definition twoRows : list MessageRow :=
  [fixtureRow "msg-1" "ses-1" "assistant anthropic 1000" 1000;
   fixtureRow "msg-2" "ses-1" "assistant anthropic 2000" 2000].

End LoaderMore.

(* ===================================================================== *)
(** ** Further vocabulary for the usage table *)
(* ===================================================================== *)

Module TableMore.

Import UStr UsageTable TableSpec.
Local Open Scope list_scope.
Local Open Scope Q_scope.

(** The tiers from narrowest to widest. *)
Definition tierRank (tier : TableWidthTier) : nat :=
  match tier with
  | narrow => 0
  | medium => 1
  | wide => 2
  end.

(** The width of a border line over [cols]: the cells, a bar between
    them and one at each end. *)
Definition lineWidth (cols : list Column) : nat :=
  fold_right (fun c acc => (columnWidth c + acc)%nat) 0%nat cols
  + List.length cols + 1.

(** Two aggregates of a day agree on what the table reads: the models,
    the token counts other than reasoning, and the cost. *)
Definition sameShown (a b : DailyStats) : Prop :=
  models a = models b
  /\ input a = input b
  /\ output a = output b
  /\ cacheRead a = cacheRead b
  /\ cacheWrite a = cacheWrite b
  /\ cost a = cost b.

(** The sum of [f] over the days of an aggregate. *)
Definition sumOver (f : DailyStats -> Q)
    (dailyStats : list (jsstring * DailyStats)) : Q :=
  fold_right (fun e acc => f (snd e) + acc) 0 dailyStats.

(** *** Fixtures *)

(** Two days, the later one inserted first, as in "should sort dates
    ascending"; reasoning tokens and providers are set on one of them. *)
Definition twoDays : list (jsstring * DailyStats) :=
  [ (lit "2025-02-15",
     {| date := lit "2025-02-15";
        models := [];
        providers := [lit "anthropic"];
        providerStats := [];
        input := 2000; output := 1000;
        cacheWrite := 0; cacheRead := 0;
        reasoning := 777;
        cost := 20 |});
    (lit "2025-02-10",
     {| date := lit "2025-02-10";
        models := [];
        providers := [];
        providerStats := [];
        input := 1000; output := 500;
        cacheWrite := 0; cacheRead := 0;
        reasoning := 0;
        cost := 10 |}) ].

(** The same two days with the reasoning tokens, the providers and the
    [date] field changed. *)
Definition twoDaysOtherwise : list (jsstring * DailyStats) :=
  [ (lit "2025-02-15",
     {| date := lit "another day";
        models := [];
        providers := [];
        providerStats := [];
        input := 2000; output := 1000;
        cacheWrite := 0; cacheRead := 0;
        reasoning := 0;
        cost := 20 |});
    (lit "2025-02-10",
     {| date := lit "2025-02-10";
        models := [];
        providers := [lit "openai"];
        providerStats := [];
        input := 1000; output := 500;
        cacheWrite := 0; cacheRead := 0;
        reasoning := 123456;
        cost := 10 |}) ].

(** A day whose key is longer than the date column. *)
Definition longKeyStats : DailyStats :=
  {| date := lit "2025-02-11T00:00";
     models := [];
     providers := [];
     providerStats := [];
     input := 100; output := 50;
     cacheWrite := 0; cacheRead := 0;
     reasoning := 0;
     cost := 1 |}.

Definition longKeyDay : list (jsstring * DailyStats) :=
  [ (lit "2025-02-11T00:00", longKeyStats) ].

End TableMore.

(* ===================================================================== *)
(** ** Facts about the SQLite loader *)
(* ===================================================================== *)

Module LoaderFacts.

Import Loader LoaderSpec.

Section WithParser.

Variable JSON_parse : string -> Outcome MessageData.

Lemma mapM_rowToMessage (rows : list MessageRow) (out : Console) :
  mapM (rowToMessage JSON_parse) rows out = (decodeRows JSON_parse rows, out).
Proof.
  induction rows as [|row rows IH]; simpl.
  - reflexivity.
  - unfold bind at 1. unfold rowToMessage at 1. unfold bind at 1, lift.
    destruct (JSON_parse (data row)) as [d|err]; [|reflexivity].
    unfold ret at 1. unfold bind. rewrite IH.
    destruct (decodeRows JSON_parse rows); reflexivity.
Qed.

Lemma fold_max_is_maxCreated (rows : list MessageRow) (start : Z) :
  fold_left (fun maxTimestamp row =>
               if time_created row >? maxTimestamp
               then time_created row else maxTimestamp) rows start
  = maxCreated rows start.
Proof.
  unfold maxCreated.
  revert start; induction rows as [|r rows IH]; intro start; simpl.
  - reflexivity.
  - rewrite IH.
    assert (Hmax : forall a b l,
               fold_right Z.max (Z.max a b) l
               = Z.max a (fold_right Z.max b l)).
    { intros a b l; induction l as [|x l IHl]; simpl; [reflexivity|].
      rewrite IHl. lia. }
    destruct (Z.gtb_spec (time_created r) start) as [Hgt|Hle].
    + replace (time_created r) with (Z.max (time_created r) start) at 1 by lia.
      apply Hmax.
    + replace start with (Z.max (time_created r) start) at 1 by lia.
      apply Hmax.
Qed.

(** The incremental loader, case by case. *)
Lemma loadMessagesIncremental_cases (s : Storage) (c : CursorState)
    (pf : option string) (out : Console) :
  loadMessagesIncremental JSON_parse s c pf out =
  match s with
  | Unreachable err =>
      (Returned (unchanged c), (out ++ [incrementalErrorLine err])%list)
  | Opened (Malformed err) =>
      (Returned (unchanged c), (out ++ [incrementalErrorLine err])%list)
  | Opened (MessageTable rows) =>
      match decodeRows JSON_parse (newerThan c rows) with
      | Threw err =>
          (Returned (unchanged c), (out ++ [incrementalErrorLine err])%list)
      | Returned msgs =>
          (Returned
             {| messages := filter (fun msg => isValidMessage msg pf) msgs;
                cursor := {| lastTimestamp :=
                               maxCreated (newerThan c rows)
                                 (lastTimestamp c) |} |},
           out)
      end
  end.
Proof.
  unfold loadMessagesIncremental.
  destruct s as [err|[err|rows]]; try reflexivity.
  unfold try_catch, try_finally, bind, openDb, query_all, ret, close.
  cbv beta iota.
  rewrite mapM_rowToMessage. fold (newerThan c rows).
  destruct (decodeRows JSON_parse (newerThan c rows)) as [msgs|err].
  - rewrite fold_max_is_maxCreated. reflexivity.
  - reflexivity.
Qed.

Lemma console_grows_ne (out : Console) (line : string) :
  (out ++ [line])%list <> out.
Proof.
  intro H. apply (f_equal (@List.length string)) in H.
  rewrite length_app in H. simpl in H. lia.
Qed.

Lemma maxCreated_ge (rows : list MessageRow) (start : Z) :
  start <= maxCreated rows start.
Proof.
  unfold maxCreated; induction rows as [|r rows IH]; simpl; lia.
Qed.

Lemma maxCreated_covers (rows : list MessageRow) (start : Z) (row : MessageRow) :
  In row rows -> time_created row <= maxCreated rows start.
Proof.
  unfold maxCreated; induction rows as [|r rows IH]; simpl; intros Hin.
  - destruct Hin.
  - destruct Hin as [->|Hin]; [lia|]. specialize (IH Hin). lia.
Qed.

Lemma filter_nothing {A} (p : A -> bool) (l : list A) :
  (forall x, In x l -> p x = false) -> filter p l = [].
Proof.
  induction l as [|x l IH]; simpl; intro H; [reflexivity|].
  rewrite (H x (or_introl eq_refl)). apply IH.
  intros y Hy. apply H. right. exact Hy.
Qed.

(** Nothing in the store is newer than the cursor a successful call
    returns. *)
Lemma nothing_newer (rows : list MessageRow) (c : CursorState) :
  newerThan
    {| lastTimestamp := maxCreated (newerThan c rows) (lastTimestamp c) |}
    rows = [].
Proof.
  unfold newerThan at 1. apply filter_nothing. intros row Hin. simpl.
  rewrite Z.gtb_ltb. apply Z.ltb_ge.
  destruct (Z.gtb_spec (time_created row) (lastTimestamp c)) as [Hgt|Hle].
  - apply maxCreated_covers. unfold newerThan. apply filter_In. split; [exact Hin|].
    rewrite Z.gtb_ltb. apply Z.ltb_lt. lia.
  - pose proof (maxCreated_ge (newerThan c rows) (lastTimestamp c)). lia.
Qed.

(** A call that returns [r] and leaves the console as it was has run its
    [try] block to the end: every failure writes a line. *)
Lemma quiet_return_means_success (s : Storage) (c : CursorState)
    (pf : option string) (out : Console) (r : LoadResult) :
  loadMessagesIncremental JSON_parse s c pf out = (Returned r, out) ->
  exists rows msgs,
    s = Opened (MessageTable rows) /\
    decodeRows JSON_parse (newerThan c rows) = Returned msgs /\
    r = {| messages := filter (fun msg => isValidMessage msg pf) msgs;
           cursor := {| lastTimestamp :=
                          maxCreated (newerThan c rows) (lastTimestamp c) |} |}.
Proof.
  rewrite loadMessagesIncremental_cases.
  destruct s as [err|[err|rows]].
  - intro H; inversion H as [[Hr Hout]].
    exfalso; exact (console_grows_ne _ _ Hout).
  - intro H; inversion H as [[Hr Hout]].
    exfalso; exact (console_grows_ne _ _ Hout).
  - destruct (decodeRows JSON_parse (newerThan c rows)) as [msgs|err] eqn:Hdec.
    + intro H; inversion H as [Hr]. exists rows, msgs. auto.
    + intro H; inversion H as [[Hr Hout]].
      exfalso; exact (console_grows_ne _ _ Hout).
Qed.

(** Decoding pairs every row with the message built from it. *)
Lemma decodeRows_pairs (rows : list MessageRow) (msgs : list MessageJson) :
  decodeRows JSON_parse rows = Returned msgs ->
  Forall2
    (fun row msg =>
       exists d, JSON_parse (data row) = Returned d
                 /\ msg = LoaderMore.messageOfRow row d)
    rows msgs.
Proof.
  revert msgs; induction rows as [|row rows IH]; intros msgs; simpl.
  - intro H; injection H as <-. constructor.
  - destruct (JSON_parse (data row)) as [d|err] eqn:Hd; [|discriminate].
    destruct (decodeRows JSON_parse rows) as [ms|err]; [|discriminate].
    intro H; injection H as <-. constructor; [|apply IH; reflexivity].
    exists d. split; first [exact Hd | reflexivity].
Qed.

Lemma Forall2_In_r {A B} (R : A -> B -> Prop) (l1 : list A) (l2 : list B)
    (y : B) :
  Forall2 R l1 l2 -> In y l2 -> exists x, In x l1 /\ R x y.
Proof.
  induction 1 as [|x y' l1 l2 Hxy _ IH]; [intros []|].
  intros [<-|Hin].
  - exists x. split; [left; reflexivity|exact Hxy].
  - destruct (IH Hin) as (x' & Hx' & HR). exists x'. split; [right|]; assumption.
Qed.

Lemma Forall2_In_l {A B} (R : A -> B -> Prop) (l1 : list A) (l2 : list B)
    (x : A) :
  Forall2 R l1 l2 -> In x l1 -> exists y, In y l2 /\ R x y.
Proof.
  induction 1 as [|x' y l1 l2 Hxy _ IH]; [intros []|].
  intros [<-|Hin].
  - exists y. split; [left; reflexivity|exact Hxy].
  - destruct (IH Hin) as (y' & Hy' & HR). exists y'. split; [right|]; assumption.
Qed.

(** The messages of a decoded and filtered query are exactly the accepted
    messages of the rows that satisfy its condition. *)
Lemma delivered_iff (where_ : MessageRow -> bool) (rows : list MessageRow)
    (pf : option string) (msgs : list MessageJson) (msg : MessageJson) :
  decodeRows JSON_parse (filter where_ rows) = Returned msgs ->
  In msg (filter (fun m => isValidMessage m pf) msgs)
  <-> exists row d,
        In row rows /\ where_ row = true
        /\ JSON_parse (data row) = Returned d
        /\ msg = LoaderMore.messageOfRow row d
        /\ isValidMessage msg pf = true.
Proof.
  intro Hdec. apply decodeRows_pairs in Hdec.
  rewrite filter_In. split.
  - intros [Hin Hvalid].
    destruct (Forall2_In_r _ _ _ _ Hdec Hin) as (row & Hrow & d & Hd & ->).
    apply filter_In in Hrow. destruct Hrow as [Hrow Hwhere].
    exists row, d. auto.
  - intros (row & d & Hrow & Hwhere & Hd & -> & Hvalid).
    split; [|exact Hvalid].
    assert (Hq : In row (filter where_ rows))
      by (apply filter_In; split; assumption).
    destruct (Forall2_In_l _ _ _ _ Hdec Hq) as (m & Hm & d' & Hd' & ->).
    rewrite Hd in Hd'. injection Hd' as <-. exact Hm.
Qed.

(** C1 -- Idempotent incremental load.  If a call of
    [loadMessagesIncremental] with cursor [c] returns a result with cursor
    [c'], then a second call with [c'] on the same, unchanged store
    returns no messages and the cursor [c']; and if the first call
    succeeded (it logged nothing), so does the second. *)
Theorem incremental_load_idempotent (s : Storage) (c : CursorState)
    (pf : option string) (out out1 : Console) (r : LoadResult) :
  loadMessagesIncremental JSON_parse s c pf out = (Returned r, out1) ->
  exists out2,
    loadMessagesIncremental JSON_parse s (cursor r) pf out1
    = (Returned {| messages := []; cursor := cursor r |}, out2)
    /\ (out1 = out -> out2 = out1).
Proof.
  rewrite !loadMessagesIncremental_cases.
  destruct s as [err|[err|rows]].
  - intro H; injection H as <- <-. eexists; split; [reflexivity|].
    intro Hout; exfalso; exact (console_grows_ne _ _ Hout).
  - intro H; injection H as <- <-. eexists; split; [reflexivity|].
    intro Hout; exfalso; exact (console_grows_ne _ _ Hout).
  - destruct (decodeRows JSON_parse (newerThan c rows)) as [msgs|err] eqn:Hdec.
    + intro H; injection H as <- <-. cbn [cursor].
      rewrite nothing_newer. eexists; split; reflexivity.
    + intro H; injection H as <- <-.
      change (newerThan (cursor (unchanged c)) rows) with (newerThan c rows).
      rewrite Hdec. eexists; split; [reflexivity|].
      intro Hout; exfalso; exact (console_grows_ne _ _ Hout).
Qed.

(** C2 -- Failure atomicity.  When the store is unreachable or malformed
    (opening the database, querying it, or decoding a returned row throws
    [err]), [loadMessagesIncremental] returns normally, with no messages
    and a cursor whose [lastTimestamp] is the input's, and has logged one
    line that reports [err]. *)
Theorem failed_read_keeps_cursor (s : Storage) (c : CursorState)
    (pf : option string) (out : Console) (err : Thrown) :
  storeFailure JSON_parse c s err ->
  loadMessagesIncremental JSON_parse s c pf out
  = (Returned {| messages := [];
                 cursor := {| lastTimestamp := lastTimestamp c |} |},
     (out ++ [("Error in incremental load: " ++ String_of err)%string])%list).
Proof.
  intro Hfail. rewrite loadMessagesIncremental_cases.
  destruct Hfail as [err|err|rows err Hdec].
  - reflexivity.
  - reflexivity.
  - rewrite Hdec. reflexivity.
Qed.

(** C3, as amended -- the checkpoint a successful call returns is the
    larger of the input checkpoint and the creation times of all the rows
    the query returned (those created after the input checkpoint), whether
    the validity filter accepts them or not.  The messages returned are
    the accepted ones: the decoded rows created after the input
    checkpoint that the validity filter accepts, all of them, each once
    and in the order of the rows; a message is returned exactly when it is
    the message of such a row. *)
Theorem checkpoint_is_max_over_queried_rows (rows : list MessageRow)
    (c : CursorState) (pf : option string) (out : Console) (r : LoadResult) :
  loadMessagesIncremental JSON_parse (Opened (MessageTable rows)) c pf out
  = (Returned r, out) ->
  lastTimestamp (cursor r)
  = maxCreated (newerThan c rows) (lastTimestamp c)
  /\ (forall row, In row rows ->
        time_created row <= lastTimestamp (cursor r))
  /\ Forall (fun msg => isValidMessage msg pf = true) (messages r)
  /\ (exists decoded,
        Forall2
          (fun row msg =>
             exists d, JSON_parse (data row) = Returned d
                       /\ msg = LoaderMore.messageOfRow row d)
          (filter (fun row => lastTimestamp c <? time_created row) rows)
          decoded
        /\ messages r = filter (fun msg => isValidMessage msg pf) decoded)
  /\ (forall msg,
        In msg (messages r)
        <-> exists row d,
              In row rows
              /\ lastTimestamp c < time_created row
              /\ JSON_parse (data row) = Returned d
              /\ msg = LoaderMore.messageOfRow row d
              /\ isValidMessage msg pf = true).
Proof.
  intro Hrun.
  destruct (quiet_return_means_success _ _ _ _ _ Hrun)
    as (rows' & msgs & Hs & Hdec & ->).
  injection Hs as <-. cbn [cursor lastTimestamp messages].
  split; [reflexivity|]. split; [|split; [|split]].
  - intros row Hin.
    destruct (Z.gtb_spec (time_created row) (lastTimestamp c)) as [Hgt|Hle].
    + apply maxCreated_covers. apply filter_In. split; [exact Hin|].
      rewrite Z.gtb_ltb. apply Z.ltb_lt. lia.
    + pose proof (maxCreated_ge (newerThan c rows) (lastTimestamp c)). lia.
  - apply Forall_forall. intros msg Hin.
    apply filter_In in Hin. apply Hin.
  - exists msgs. split; [|reflexivity].
    apply decodeRows_pairs in Hdec. unfold newerThan in Hdec.
    erewrite filter_ext; [exact Hdec|].
    intro row. cbv beta. symmetry. apply Z.gtb_ltb.
  - intro msg. unfold newerThan in Hdec.
    rewrite (delivered_iff _ _ pf _ msg Hdec).
    split; intros (row & d & Hrow & Hwhere & Hrest);
      exists row, d; (split; [exact Hrow|]); (split; [|exact Hrest]).
    + rewrite Z.gtb_ltb in Hwhere. apply Z.ltb_lt in Hwhere. exact Hwhere.
    + rewrite Z.gtb_ltb. apply Z.ltb_lt. exact Hwhere.
Qed.

Lemma successiveLoads_spec (stores : list Storage) (c : CursorState)
    (pf : option string) (out : Console) :
  List.length (successiveLoads JSON_parse stores c pf out)
  = List.length stores
  /\ StronglySorted Z.le
       (map lastTimestamp (c :: successiveLoads JSON_parse stores c pf out)).
Proof.
  revert c out; induction stores as [|s stores IH]; intros c out.
  - split; [reflexivity|]. repeat constructor.
  - cbn [successiveLoads].
    assert (Hstep : exists r out',
               loadMessagesIncremental JSON_parse s c pf out
               = (Returned r, out')
               /\ lastTimestamp c <= lastTimestamp (cursor r)).
    { rewrite loadMessagesIncremental_cases.
      destruct s as [err|[err|rows]];
        [eexists; eexists; split; [reflexivity|simpl; lia] ..|].
      destruct (decodeRows JSON_parse (newerThan c rows));
        eexists; eexists; (split; [reflexivity|]); simpl;
        [apply maxCreated_ge|lia]. }
    destruct Hstep as (r & out' & -> & Hle).
    destruct (IH (cursor r) out') as [Hlen Hsorted].
    split; [simpl; rewrite Hlen; reflexivity|].
    cbn [map] in *. constructor; [exact Hsorted|].
    constructor; [exact Hle|].
    apply StronglySorted_inv in Hsorted. destruct Hsorted as [_ Hall].
    eapply Forall_impl; [|exact Hall]. intros t Ht. cbv beta in Ht. lia.
Qed.

(** C4 -- Cursor monotonicity.  Whatever the state of the store, a call
    returns, and the cursor it returns is not below the input cursor;
    along any sequence of successive calls, each resuming from the cursor
    the previous one returned, every call returns and the checkpoints
    never decrease. *)
Theorem cursor_never_decreases (c : CursorState) (pf : option string)
    (out : Console) :
  (forall s : Storage,
      exists r out',
        loadMessagesIncremental JSON_parse s c pf out = (Returned r, out')
        /\ lastTimestamp c <= lastTimestamp (cursor r))
  /\ (forall stores : list Storage,
        List.length (successiveLoads JSON_parse stores c pf out)
        = List.length stores
        /\ StronglySorted Z.le
             (map lastTimestamp
                (c :: successiveLoads JSON_parse stores c pf out))).
Proof.
  split.
  - intro s.
    destruct (successiveLoads_spec [s] c pf out) as [Hlen Hsorted].
    cbn [successiveLoads] in *.
    destruct (loadMessagesIncremental JSON_parse s c pf out)
      as [[r|err] out'] eqn:Hrun; [|discriminate Hlen].
    exists r, out'. split; [reflexivity|].
    cbn [map] in Hsorted. apply StronglySorted_inv in Hsorted.
    destruct Hsorted as [_ Hall]. inversion Hall; assumption.
  - intro stores. apply successiveLoads_spec.
Qed.

End WithParser.

Example first_call_loads_all :
  loadMessagesIncremental fixtureParse twoMessages createCursor None []
  = (Returned
       {| messages :=
            [fixtureMessage "msg-1" "ses-1" (assistantData "anthropic" 1000);
             fixtureMessage "msg-2" "ses-1" (assistantData "anthropic" 2000)];
          cursor := {| lastTimestamp := 2000 |} |},
     []).
Proof. reflexivity. Qed.

Example missing_database_handled :
  loadMessagesIncremental fixtureParse
    (Unreachable (ErrorObject "SQLiteError" "unable to open database file"))
    createCursor None []
  = (Returned {| messages := []; cursor := {| lastTimestamp := 0 |} |},
     ["Error in incremental load: SQLiteError: unable to open database file"]).
Proof. reflexivity. Qed.

Example second_call_returns_only_new :
  loadMessagesIncremental fixtureParse threeMessages
    {| lastTimestamp := 2000 |} None []
  = (Returned
       {| messages :=
            [fixtureMessage "msg-3" "ses-1" (assistantData "anthropic" 3000)];
          cursor := {| lastTimestamp := 3000 |} |},
     [])
  /\ successiveLoads fixtureParse [twoMessages; threeMessages; threeMessages]
       createCursor None []
     = [ {| lastTimestamp := 2000 |}; {| lastTimestamp := 3000 |};
         {| lastTimestamp := 3000 |} ].
Proof. split; reflexivity. Qed.

Example user_and_tokenless_skipped :
  loadMessagesIncremental fixtureParse mixedRoles createCursor None []
  = (Returned
       {| messages :=
            [fixtureMessage "asst-1" "ses-1" (assistantData "anthropic" 2000)];
          cursor := {| lastTimestamp := 2000 |} |},
     [])
  /\ loadMessages fixtureParse mixedRoles None []
     = (Returned
          [fixtureMessage "asst-1" "ses-1" (assistantData "anthropic" 2000)],
        [])
  /\ loadRecentMessages fixtureParse 86401500 mixedRoles None None []
     = (Returned
          [fixtureMessage "asst-1" "ses-1" (assistantData "anthropic" 2000)],
        [])
  /\ loadRecentMessages fixtureParse 86402500 mixedRoles None None []
     = (Returned [], []).
Proof. repeat split; reflexivity. Qed.

Lemma incremental_load_idempotent_witness :
  exists out2,
    loadMessagesIncremental fixtureParse twoMessages
      {| lastTimestamp := 2000 |} None []
    = (Returned {| messages := []; cursor := {| lastTimestamp := 2000 |} |},
       out2)
    /\ (@nil string = [] -> out2 = []).
Proof.
  apply (incremental_load_idempotent fixtureParse twoMessages createCursor
           None [] []
           {| messages :=
                [fixtureMessage "msg-1" "ses-1"
                   (assistantData "anthropic" 1000);
                 fixtureMessage "msg-2" "ses-1"
                   (assistantData "anthropic" 2000)];
              cursor := {| lastTimestamp := 2000 |} |}).
  reflexivity.
Defined.

Lemma failed_read_keeps_cursor_witness :
  loadMessagesIncremental fixtureParse brokenRow
    {| lastTimestamp := 500 |} None []
  = (Returned {| messages := []; cursor := {| lastTimestamp := 500 |} |},
     ["Error in incremental load: SyntaxError: JSON Parse error: Unexpected token"]).
Proof.
  apply (failed_read_keeps_cursor fixtureParse brokenRow
           {| lastTimestamp := 500 |} None []
           (ErrorObject "SyntaxError" "JSON Parse error: Unexpected token")).
  apply decode_throws. reflexivity.
Defined.

(** C3, as the claim states it, fails: a user message created after the
    last accepted message is rejected by the filter, yet its creation time
    becomes the checkpoint (2000), not the largest creation time of an
    accepted record (1000). *)
Lemma rejected_row_advances_checkpoint :
  exists r,
    loadMessagesIncremental fixtureParse
      (Opened (MessageTable assistantThenUser)) createCursor None []
    = (Returned r, [])
    /\ messages r
       = [fixtureMessage "asst-1" "ses-1" (assistantData "anthropic" 1000)]
    /\ lastTimestamp (cursor r) = 2000
    /\ checkpointOverAccepted fixtureParse assistantThenUser createCursor None
       = 1000
    /\ lastTimestamp (cursor r)
       <> checkpointOverAccepted fixtureParse assistantThenUser
            createCursor None.
Proof.
  eexists. split; [reflexivity|]. cbn [messages cursor lastTimestamp].
  repeat split. discriminate.
Qed.

Lemma checkpoint_is_max_over_queried_rows_witness :
  lastTimestamp {| lastTimestamp := 2000 |}
  = maxCreated (newerThan createCursor assistantThenUser)
      (lastTimestamp createCursor)
  /\ (forall row, In row assistantThenUser ->
        time_created row <= lastTimestamp {| lastTimestamp := 2000 |})
  /\ Forall (fun msg => isValidMessage msg None = true)
       [fixtureMessage "asst-1" "ses-1" (assistantData "anthropic" 1000)]
  /\ (exists decoded,
        Forall2
          (fun row msg =>
             exists d, fixtureParse (data row) = Returned d
                       /\ msg = LoaderMore.messageOfRow row d)
          assistantThenUser decoded
        /\ [fixtureMessage "asst-1" "ses-1" (assistantData "anthropic" 1000)]
           = filter (fun msg => isValidMessage msg None) decoded)
  /\ (forall msg,
        In msg
          [fixtureMessage "asst-1" "ses-1" (assistantData "anthropic" 1000)]
        <-> exists row d,
              In row assistantThenUser
              /\ 0 < time_created row
              /\ fixtureParse (data row) = Returned d
              /\ msg = LoaderMore.messageOfRow row d
              /\ isValidMessage msg None = true).
Proof.
  apply (checkpoint_is_max_over_queried_rows fixtureParse assistantThenUser
           createCursor None []
           {| messages :=
                [fixtureMessage "asst-1" "ses-1"
                   (assistantData "anthropic" 1000)];
              cursor := {| lastTimestamp := 2000 |} |}).
  reflexivity.
Defined.

End LoaderFacts.

(* ===================================================================== *)
(** ** Facts about the validity filter, on every load path *)
(* ===================================================================== *)

Module FilterFacts.

Import FilterSpec.

Section WithParsers.

Variable JSON_parse : string -> Outcome MessageData.
Variable JSON_parse_file : string -> Outcome (option MessageJson).

Lemma isValidMessage_sound (msg : MessageJson) (pf : option string) :
  isValidMessage msg pf = true ->
  role msg <> "user" /\ tokens msg <> None.
Proof.
  unfold isValidMessage.
  destruct (String.eqb_spec (role msg) "user") as [Heq|Hne];
    [discriminate|].
  destruct (tokens msg); [|discriminate].
  intros _. split; [exact Hne|discriminate].
Qed.

Lemma filter_guard_In (p : option MessageJson -> bool)
    (results : list (option MessageJson)) (msg : MessageJson) :
  In msg (FileLoader.filter_guard p results) -> p (Some msg) = true.
Proof.
  induction results as [|r results IH]; simpl; [intros []|].
  destruct r as [m|]; [|exact IH].
  destruct (p (Some m)) eqn:Hp; [|exact IH].
  intros [->|Hin]; [exact Hp|exact (IH Hin)].
Qed.

(** Each of the three SQLite paths returns a sub-list of valid messages:
    either the filtered decoding of some rows, or nothing. *)
Lemma sqlite_body_filtered (s : Loader.Storage)
    (where_ : Loader.MessageRow -> bool) (pf : option string)
    (line : Thrown -> string) (out : Console) :
  exists msgs out',
    try_catch
      (db <- Loader.openDb s ;;
       try_finally
         (rows <- Loader.query_all db where_ ;;
          msgs <- mapM (Loader.rowToMessage JSON_parse) rows ;;
          ret (filter (fun msg => isValidMessage msg pf) msgs))
         (Loader.close db))
      (fun err => console_error (line err) ;;; ret []) out
    = (Returned (filter (fun msg => isValidMessage msg pf) msgs), out').
Proof.
  destruct s as [err|[err|rows]];
    try (exists [], (out ++ [line err])%list; reflexivity).
  unfold try_catch, try_finally, bind, Loader.openDb, Loader.query_all,
    ret, Loader.close.
  cbv beta iota. rewrite LoaderFacts.mapM_rowToMessage.
  destruct (LoaderSpec.decodeRows JSON_parse (filter where_ rows))
    as [msgs|err].
  - exists msgs, out. reflexivity.
  - exists [], (out ++ [line err])%list. reflexivity.
Qed.

Lemma directory_scan_filtered (s : FileLoader.Storage) (pf : option string)
    (out : Console) :
  exists results out',
    FileLoader.loadMessages JSON_parse_file s pf out
    = (Returned
         (FileLoader.filter_guard
            (fun r => match r with
                      | None => false
                      | Some msg => isValidMessage msg pf
                      end)
            results),
       out').
Proof.
  unfold FileLoader.loadMessages, try_catch.
  unfold bind at 1. unfold lift at 1.
  destruct s as [sessionDirs|err].
  - unfold bind at 1.
    destruct (FileLoader.collectFilePaths [] sessionDirs out)
      as [[filePaths|err] out1].
    + unfold bind at 1.
      match goal with
      | |- context [mapM ?f filePaths out1] =>
          destruct (mapM f filePaths out1) as [[results|err] out2]
      end.
      * exists results, out2. reflexivity.
      * eexists [], _. reflexivity.
    + eexists [], _. reflexivity.
  - eexists [], _. reflexivity.
Qed.

(** C5 -- Validity filter correctness.  Whatever the state of the store
    and whichever way messages are loaded ([loadMessages],
    [loadRecentMessages], [loadMessagesIncremental], or the directory
    scan), no returned message has role ["user"] and none lacks its token
    breakdown. *)
Theorem rejected_records_never_returned (path : LoadPath)
    (pf : option string) (out out' : Console) (msgs : list MessageJson)
    (msg : MessageJson) :
  loadVia JSON_parse JSON_parse_file path pf out = (Returned msgs, out') ->
  In msg msgs ->
  role msg <> "user" /\ tokens msg <> None.
Proof.
  intros Hrun Hin. apply (isValidMessage_sound msg pf).
  destruct path as [s|now s hoursBack|s c|s]; cbn [loadVia] in Hrun.
  - unfold Loader.loadMessages in Hrun.
    destruct (sqlite_body_filtered s (fun _ => true) pf
                (fun err => "Error reading messages from database: "
                            ++ String_of err) out) as (ms & o & Heq).
    rewrite Heq in Hrun. injection Hrun as <- _.
    apply filter_In in Hin. apply Hin.
  - unfold Loader.loadRecentMessages in Hrun. cbv zeta in Hrun.
    match type of Hrun with
    | context [Loader.query_all _ ?w] =>
        destruct (sqlite_body_filtered s w pf
                    (fun err => "Error reading recent messages: "
                                ++ String_of err) out) as (ms & o & Heq)
    end.
    rewrite Heq in Hrun. injection Hrun as <- _.
    apply filter_In in Hin. apply Hin.
  - unfold bind in Hrun.
    rewrite LoaderFacts.loadMessagesIncremental_cases in Hrun.
    destruct s as [err|[err|rows]];
      try (injection Hrun as <- _; destruct Hin).
    destruct (LoaderSpec.decodeRows JSON_parse
                (LoaderSpec.newerThan c rows)) as [ms|err];
      injection Hrun as <- _; [|destruct Hin].
    apply filter_In in Hin. apply Hin.
  - destruct (directory_scan_filtered s pf out) as (results & o & Heq).
    rewrite Heq in Hrun. injection Hrun as <- _.
    apply filter_guard_In in Hin. exact Hin.
Qed.

End WithParsers.

Lemma lower_ascii_idempotent (c : ascii) :
  lower_ascii (lower_ascii c) = lower_ascii c.
Proof.
  destruct c as [[] [] [] [] [] [] [] []]; reflexivity.
Qed.

Lemma toLowerCase_idempotent (s : string) :
  toLowerCase (toLowerCase s) = toLowerCase s.
Proof.
  induction s as [|c s IH]; simpl; [reflexivity|].
  rewrite lower_ascii_idempotent, IH. reflexivity.
Qed.

(** With a provider filter set, a record that passes the role and token
    tests is kept exactly when its lower-cased provider id is the filter,
    taken as it is given. *)
Lemma provider_test (msg : MessageJson) (f : string) :
  role msg <> "user" -> tokens msg <> None -> f <> "" ->
  isValidMessage msg (Some f)
  = (toLowerCase (recordProviderId msg) =? f)%string.
Proof.
  intros Hrole Htok Hf. unfold isValidMessage, recordProviderId.
  destruct (String.eqb_spec (role msg) "user") as [Heq|_];
    [contradiction|].
  destruct (tokens msg) as [t|]; [|contradiction].
  cbn [truthy_string].
  destruct (String.eqb_spec f "") as [Heq|_]; [contradiction|].
  cbn [negb].
  match goal with
  | |- (if negb ?b then false else true) = _ => destruct b; reflexivity
  end.
Qed.

(** C6, as amended -- the provider match lower-cases the record's
    provider id ([model.providerID], else [providerID], else ["unknown"])
    and compares it with the filter exactly as given.  It is therefore
    insensitive to the letter case of the record's id only: with a filter
    in lower case, a record whose id differs from the filter only in
    letter case is accepted; a filter that is not in lower case accepts
    no record. *)
Theorem provider_match_ignores_record_case_only (msg : MessageJson)
    (f : string) :
  role msg <> "user" -> tokens msg <> None -> f <> "" ->
  isValidMessage msg (Some f)
  = (toLowerCase (recordProviderId msg) =? f)%string
  /\ (toLowerCase f = f ->
      toLowerCase (recordProviderId msg) = toLowerCase f ->
      isValidMessage msg (Some f) = true)
  /\ (toLowerCase f <> f -> isValidMessage msg (Some f) = false).
Proof.
  intros Hrole Htok Hf.
  pose proof (provider_test msg f Hrole Htok Hf) as Htest.
  split; [exact Htest|]. split.
  - intros Hlow Hsame. rewrite Htest, Hsame, Hlow.
    apply String.eqb_refl.
  - intros Hup. rewrite Htest.
    destruct (String.eqb_spec (toLowerCase (recordProviderId msg)) f)
      as [Heq|_]; [|reflexivity].
    exfalso. apply Hup. rewrite <- Heq. apply toLowerCase_idempotent.
Qed.

Example directory_scan_keeps_assistant_only :
  FileLoader.loadMessages fixtureParseFile fixtureDirectory None []
  = (Returned [lowerCaseRecord], []).
Proof. reflexivity. Qed.

Example provider_filter_respected :
  Loader.loadMessagesIncremental LoaderSpec.fixtureParse
    (Loader.Opened
       (Loader.MessageTable
          [LoaderSpec.fixtureRow "msg-1" "ses-1"
             "assistant anthropic 1000" 1000;
           LoaderSpec.fixtureRow "msg-2" "ses-1"
             "assistant openai 2000" 2000]))
    Loader.createCursor (Some "anthropic") []
  = (Returned
       {| Loader.messages := [lowerCaseRecord];
          Loader.cursor := {| lastTimestamp := 2000 |} |},
     []).
Proof. reflexivity. Qed.

Lemma rejected_records_never_returned_witness :
  role lowerCaseRecord <> "user" /\ tokens lowerCaseRecord <> None.
Proof.
  apply (rejected_records_never_returned LoaderSpec.fixtureParse
           fixtureParseFile (ViaDirectoryScan fixtureDirectory) None [] []
           [lowerCaseRecord] lowerCaseRecord).
  - reflexivity.
  - simpl. left. reflexivity.
Defined.

(** C6, as the claim states it, fails: the record's provider id
    ["anthropic"] differs from the filter ["Anthropic"] only in letter
    case, and the record is rejected. *)
Lemma capitalised_filter_rejects_matching_record :
  toLowerCase (recordProviderId lowerCaseRecord) = toLowerCase "Anthropic"
  /\ role lowerCaseRecord = "assistant"
  /\ tokens lowerCaseRecord <> None
  /\ isValidMessage lowerCaseRecord (Some "Anthropic") = false.
Proof.
  repeat split. discriminate.
Qed.

Lemma provider_match_ignores_record_case_only_witness :
  isValidMessage mixedCaseRecord (Some "anthropic")
  = (toLowerCase (recordProviderId mixedCaseRecord) =? "anthropic")%string
  /\ (toLowerCase "anthropic" = "anthropic" ->
      toLowerCase (recordProviderId mixedCaseRecord)
      = toLowerCase "anthropic" ->
      isValidMessage mixedCaseRecord (Some "anthropic") = true)
  /\ (toLowerCase "anthropic" <> "anthropic" ->
      isValidMessage mixedCaseRecord (Some "anthropic") = false).
Proof.
  apply (provider_match_ignores_record_case_only mixedCaseRecord "anthropic").
  - discriminate.
  - discriminate.
  - discriminate.
Defined.

End FilterFacts.

(* ===================================================================== *)
(** ** Facts about the Codex quota source *)
(* ===================================================================== *)

Module CodexFacts.

Import Codex CodexSpec.
Local Open Scope Q_scope.

(** [loadCodexQuota], case by case: it returns, leaves the console alone,
    and gives one snapshot per window read, or a single error snapshot
    when there is none. *)
Lemma loadCodexQuota_cases (fetch : Network) (token : option string)
    (out : Console) :
  loadCodexQuota fetch token out
  = (Returned
       (match windowsRead fetch token with
        | [] => [errorSnapshot (failureReason fetch token)]
        | lws => map windowSnapshot lws
        end),
     out).
Proof.
  unfold loadCodexQuota, windowsRead, failureReason.
  destruct (truthy_string token) eqn:Htok; cbn [negb]; [|reflexivity].
  unfold try_catch. unfold bind at 1. unfold lift at 1.
  fold (requestFor token).
  destruct (fetch (requestFor token)) as [response|[name message|text]];
    [|reflexivity|reflexivity].
  destruct (ok response); cbn [negb]; [|reflexivity].
  unfold bind at 1. unfold lift at 1.
  destruct (json response) as [[d|]|[name message|text]];
    [|reflexivity|reflexivity|reflexivity].
  destruct d as [[[[p|] [s|]]|] [[[cp|] cs]|]]; reflexivity.
Qed.

Lemma failureReason_populated (fetch : Network) (token : option string) :
  failureReason fetch token <> ""%string.
Proof.
  unfold failureReason.
  destruct (negb (truthy_string token)); [discriminate|].
  destruct (fetch (requestFor token)) as [response|[name message|text]];
    try discriminate.
  destruct (negb (ok response)); [discriminate|].
  destruct (json response) as [[d|]|[name message|text]]; discriminate.
Qed.

Lemma fraction_valid_iff_percent_in_range (p : Q) :
  validUsedFraction (p / 100) <-> 0 <= p /\ p <= 100.
Proof.
  unfold validUsedFraction. destruct p as [n d].
  unfold Qle, Qdiv, Qmult, Qinv. cbn.
  rewrite ?Pos2Z.inj_mul. lia.
Qed.

(** C7, as amended -- the Codex loader never raises.  For every token and
    every behaviour of the network (no token, a response that is not a
    success, a body without rate-limit windows, a body that cannot be
    read, a fetch that throws), [loadCodexQuota] returns a non-empty list
    of snapshots; either every snapshot carries a non-empty error string,
    or every snapshot carries no error and a used fraction that is the
    [used_percent] of a rate-limit window of the response divided by 100.
    That fraction is a valid one, between 0 and 1, exactly when the
    window's [used_percent] lies between 0 and 100: the loader neither
    clamps nor rejects a value out of range. *)
Theorem loadCodexQuota_never_raises (fetch : Network)
    (token : option string) (out : Console) :
  exists snaps,
    loadCodexQuota fetch token out = (Returned snaps, out)
    /\ snaps <> []
    /\ (Forall (fun s => exists message,
                    error s = Some message /\ message <> ""%string) snaps
        \/ Forall (fun s =>
                     error s = None
                     /\ exists lw,
                          In lw (windowsRead fetch token)
                          /\ used s = used_percent (snd lw) / 100
                          /\ (validUsedFraction (used s)
                              <-> 0 <= used_percent (snd lw)
                                  /\ used_percent (snd lw) <= 100)) snaps).
Proof.
  rewrite loadCodexQuota_cases.
  destruct (windowsRead fetch token) as [|lw lws] eqn:Hread.
  - eexists. split; [reflexivity|]. split; [discriminate|].
    left. constructor; [|constructor].
    exists (failureReason fetch token). split; [reflexivity|].
    apply failureReason_populated.
  - eexists. split; [reflexivity|]. split; [discriminate|].
    right. apply Forall_forall. intros s Hin.
    change (In s (map windowSnapshot (lw :: lws))) in Hin.
    apply in_map_iff in Hin. destruct Hin as (lw' & <- & Hin').
    split; [reflexivity|]. exists lw'. split; [exact Hin'|].
    split; [reflexivity|].
    apply fraction_valid_iff_percent_in_range.
Qed.

Lemma percent_to_fraction_bounds (p : Q) :
  0 <= p -> p <= 100 -> 0 <= p / 100 /\ p / 100 <= 1.
Proof.
  intros Hlo Hhi. split.
  - apply Qle_shift_div_l; [reflexivity|]. rewrite Qmult_0_l. exact Hlo.
  - apply Qle_shift_div_r; [reflexivity|]. rewrite Qmult_1_l. exact Hhi.
Qed.

(** C8 -- Percent-to-fraction normalisation.  Whenever a window is read,
    the snapshots returned are exactly one per window, in reading order,
    each with [used] equal to the window's [used_percent] divided by 100;
    and if every [used_percent] read lies between 0 and 100, the [used]
    of every returned snapshot lies between 0 and 1. *)
Theorem used_is_percent_over_100 (fetch : Network) (token : option string)
    (out out' : Console) (snaps : list QuotaSnapshot) :
  loadCodexQuota fetch token out = (Returned snaps, out') ->
  (windowsRead fetch token <> [] ->
   snaps
   = map (fun lw =>
            {| source := "codex";
               label := fst lw;
               used := used_percent (snd lw) / 100;
               resetAt := Some (reset_at (snd lw));
               error := None |})
       (windowsRead fetch token))
  /\ ((forall lw, In lw (windowsRead fetch token) ->
         0 <= used_percent (snd lw) /\ used_percent (snd lw) <= 100) ->
      forall s, In s snaps -> 0 <= used s /\ used s <= 1).
Proof.
  rewrite loadCodexQuota_cases. intro Hrun. injection Hrun as <- _.
  destruct (windowsRead fetch token) as [|lw lws] eqn:Hread.
  - split; [intro H; contradiction|].
    intros _ s [<-|[]]. simpl. split; discriminate.
  - split; [intros _; reflexivity|].
    intros Hrange s Hin.
    change (In s (map windowSnapshot (lw :: lws))) in Hin.
    apply in_map_iff in Hin. destruct Hin as (lw' & <- & Hin').
    destruct (Hrange lw' Hin') as [Hlo Hhi].
    apply percent_to_fraction_bounds; assumption.
Qed.

Example codex_two_windows :
  loadCodexQuota fixtureNetwork (Some "token"%string) []
  = (Returned fixtureSnapshots, []).
Proof. reflexivity. Qed.

Example codex_without_token :
  loadCodexQuota fixtureNetwork None []
  = (Returned [errorSnapshot "No --codex-token provided"], []).
Proof. reflexivity. Qed.

Example codex_api_error :
  loadCodexQuota unauthorisedNetwork (Some "token"%string) []
  = (Returned [errorSnapshot "API error: 401"], []).
Proof. reflexivity. Qed.

Example codex_network_down :
  loadCodexQuota (fun _ => Threw (ErrorObject "TypeError" "fetch failed"))
    (Some "token"%string) []
  = (Returned [errorSnapshot "Request failed: fetch failed"], []).
Proof. reflexivity. Qed.

(** C7, as the claim states it, fails: a response whose 5-hour window
    reports 150 percent gives a snapshot without an error whose used
    fraction is 3/2, which is not a valid fraction; so the snapshots
    neither all carry an error nor all carry a valid used fraction. *)
Lemma percent_over_100_gives_invalid_fraction :
  exists snaps,
    loadCodexQuota overLimitNetwork (Some "token"%string) []
    = (Returned snaps, [])
    /\ snaps
       = [ {| source := "codex"; label := "Codex - 5h Limit";
              used := 150 / 100; resetAt := Some 1770000000;
              error := None |};
           {| source := "codex"; label := "Codex - Weekly";
              used := 20 / 100; resetAt := Some 1770500000;
              error := None |} ]
    /\ ~ (Forall (fun s => exists message,
                     error s = Some message /\ message <> ""%string) snaps
          \/ Forall (fun s => error s = None /\ validUsedFraction (used s))
               snaps).
Proof.
  eexists. split; [reflexivity|]. split; [reflexivity|].
  intros [Herrors|Hvalid].
  - inversion Herrors as [|s rest (message & Herr & _) _]. discriminate Herr.
  - inversion Hvalid as [|s rest (_ & _ & Hle) _].
    apply Hle. reflexivity.
Qed.

Lemma used_is_percent_over_100_witness :
  (windowsRead fixtureNetwork (Some "token"%string) <> [] ->
   fixtureSnapshots
   = map (fun lw =>
            {| source := "codex";
               label := fst lw;
               used := used_percent (snd lw) / 100;
               resetAt := Some (reset_at (snd lw));
               error := None |})
       (windowsRead fixtureNetwork (Some "token"%string)))
  /\ ((forall lw, In lw (windowsRead fixtureNetwork (Some "token"%string)) ->
         0 <= used_percent (snd lw) /\ used_percent (snd lw) <= 100) ->
      forall s, In s fixtureSnapshots -> 0 <= used s /\ used s <= 1).
Proof.
  apply (used_is_percent_over_100 fixtureNetwork (Some "token"%string)
           [] [] fixtureSnapshots).
  reflexivity.
Defined.

End CodexFacts.

(* ===================================================================== *)
(** ** Facts about strings and sorting *)
(* ===================================================================== *)

Module UStrFacts.

Import UStr.
Local Open Scope list_scope.

Lemma eqb_eq (a b : jsstring) : eqb a b = true <-> a = b.
Proof.
  revert b; induction a as [|x a IH]; intros [|y b]; simpl;
    try (split; [discriminate|discriminate]); [tauto|].
  rewrite andb_true_iff, N.eqb_eq, IH. split.
  - intros [-> ->]; reflexivity.
  - intro H; injection H as -> ->; split; reflexivity.
Qed.

Lemma eqb_refl (a : jsstring) : eqb a a = true.
Proof. apply eqb_eq; reflexivity. Qed.

Section Sorting.

Context {A : Type}.
Variable cmp : A -> A -> Z.

Lemma insert_sorted_perm (x : A) (l : list A) :
  Permutation (x :: l) (insert_sorted cmp x l).
Proof.
  induction l as [|y l IH]; simpl; [reflexivity|].
  destruct (cmp x y <=? 0); [reflexivity|].
  rewrite perm_swap. apply perm_skip, IH.
Qed.

Lemma sort_perm (l : list A) : Permutation l (sort cmp l).
Proof.
  induction l as [|x l IH]; simpl; [reflexivity|].
  rewrite <- insert_sorted_perm. apply perm_skip, IH.
Qed.

Lemma sort_length (l : list A) : List.length (sort cmp l) = List.length l.
Proof. symmetry. apply Permutation_length, sort_perm. Qed.

Lemma sort_In (x : A) (l : list A) : In x (sort cmp l) <-> In x l.
Proof.
  split; apply Permutation_in; [symmetry|]; apply sort_perm.
Qed.

(** With a comparison that is reflexive, total and transitive, the first
    element of the sorted list precedes every element. *)
Hypothesis cmp_refl : forall a, cmp a a <= 0.
Hypothesis cmp_total : forall a b, 0 < cmp a b -> cmp b a <= 0.
Hypothesis cmp_trans :
  forall a b c, cmp a b <= 0 -> cmp b c <= 0 -> cmp a c <= 0.

Lemma sort_head_least (l : list A) (d : A) :
  l <> [] ->
  In (hd d (sort cmp l)) l
  /\ forall x, In x l -> cmp (hd d (sort cmp l)) x <= 0.
Proof.
  induction l as [|x l IH]; [intro H; contradiction|]. intros _.
  destruct l as [|y l].
  - simpl. split; [left; reflexivity|].
    intros z [<-|[]]. apply cmp_refl.
  - destruct IH as [IHin IHle]; [discriminate|].
    change (sort cmp (x :: y :: l))
      with (insert_sorted cmp x (sort cmp (y :: l))).
    destruct (sort cmp (y :: l)) as [|m rest] eqn:Hsorted.
    + exfalso. apply (f_equal (@List.length A)) in Hsorted.
      rewrite sort_length in Hsorted. discriminate.
    + cbn [hd] in IHin, IHle. cbn [insert_sorted].
      destruct (Z.leb_spec (cmp x m) 0) as [Hle|Hgt]; cbn [hd].
      * split; [left; reflexivity|].
        intros z [<-|Hz]; [apply cmp_refl|].
        eapply cmp_trans; [exact Hle|apply IHle, Hz].
      * split; [right; exact IHin|].
        intros z [<-|Hz]; [apply cmp_total, Hgt|apply IHle, Hz].
Qed.

End Sorting.

(** Sorting looks at the comparison on the elements of the list only. *)
Lemma insert_sorted_ext {A} (cmp1 cmp2 : A -> A -> Z) (x : A) (l : list A) :
  (forall y, In y l -> cmp1 x y = cmp2 x y) ->
  insert_sorted cmp1 x l = insert_sorted cmp2 x l.
Proof.
  induction l as [|y l IH]; intro Hsame; [reflexivity|].
  cbn [insert_sorted]. rewrite (Hsame y (or_introl eq_refl)).
  destruct (cmp2 x y <=? 0); [reflexivity|].
  f_equal. apply IH. intros z Hz. apply Hsame. right. exact Hz.
Qed.

Lemma sort_ext {A} (cmp1 cmp2 : A -> A -> Z) (l : list A) :
  (forall x y, In x l -> In y l -> cmp1 x y = cmp2 x y) ->
  sort cmp1 l = sort cmp2 l.
Proof.
  induction l as [|x l IH]; intro Hsame; [reflexivity|].
  cbn [sort]. rewrite IH.
  - apply insert_sorted_ext. intros y Hy.
    apply Hsame; [left; reflexivity|].
    right. apply (sort_In cmp2). exact Hy.
  - intros a b Ha Hb. apply Hsame; right; assumption.
Qed.

Lemma compare_units_refl (a : jsstring) : compare_units a a = 0.
Proof.
  induction a as [|x a IH]; simpl; [reflexivity|].
  rewrite N.ltb_irrefl. exact IH.
Qed.

Lemma compare_units_total (a b : jsstring) :
  0 < compare_units a b -> compare_units b a <= 0.
Proof.
  revert b; induction a as [|x a IH]; intros [|y b]; simpl; try lia.
  destruct (N.ltb_spec x y), (N.ltb_spec y x); try lia.
  apply IH.
Qed.

Lemma compare_units_trans (a b c : jsstring) :
  compare_units a b <= 0 -> compare_units b c <= 0 ->
  compare_units a c <= 0.
Proof.
  revert b c; induction a as [|x a IH]; intros [|y b] [|z c]; simpl;
    try lia.
  destruct (N.ltb_spec x y), (N.ltb_spec y x), (N.ltb_spec y z),
    (N.ltb_spec z y), (N.ltb_spec x z), (N.ltb_spec z x);
    try lia.
  apply IH.
Qed.

End UStrFacts.

(* ===================================================================== *)
(** ** Facts about the usage table *)
(* ===================================================================== *)

Module UsageTableFacts.

Import UStr UsageTable TableSpec.
Local Open Scope list_scope.
Local Open Scope Q_scope.

Section WithNumberFormat.

Variable toFixed : Q -> nat -> jsstring.
Variable toString : Q -> jsstring.
Variable localeCompare : jsstring -> jsstring -> Z.

Lemma firstModel_least (ms : list jsstring) :
  match sort compare_units ms with
  | m :: _ => if eqb m [] then [] else substring0 28 m
  | [] => []
  end = substring0 28 (leastModel ms).
Proof.
  unfold leastModel. destruct (sort compare_units ms) as [|m rest];
    [reflexivity|].
  cbn [hd]. destruct (eqb m []) eqn:Hm; [|reflexivity].
  apply UStrFacts.eqb_eq in Hm. subst m. reflexivity.
Qed.

(** One turn of the loop, for a date the map has. *)
Lemma loopBody_found (dailyStats : list (jsstring * DailyStats))
    (tier : TableWidthTier) (st : LoopState) (d : jsstring)
    (s : DailyStats) :
  Map_get d dailyStats = Some s ->
  loopBody toFixed toString dailyStats tier st d
  = {| st_output := st_output st ++ dayLine toFixed toString (columnsOf tier) (d, s) ++ newline;
       st_totalInput :=
         st_totalInput st + (input s + cacheRead s + cacheWrite s);
       st_totalOutput := st_totalOutput st + output s;
       st_totalCost := st_totalCost st + cost s |}.
Proof.
  intro Hget. unfold loopBody. rewrite Hget. cbv zeta.
  rewrite firstModel_least.
  f_equal. f_equal.
  destruct tier;
    cbv [tier_eqb negb columnsOf shown filter map dayLine joinCells
         fold_right dayCell colModels colTotal colDate colCost columnWidth
         fst snd];
    rewrite <- ?app_assoc; reflexivity.
Qed.

Lemma loopBody_missing (dailyStats : list (jsstring * DailyStats))
    (tier : TableWidthTier) (st : LoopState) (d : jsstring) :
  Map_get d dailyStats = None ->
  loopBody toFixed toString dailyStats tier st d = st.
Proof.
  intro Hget. unfold loopBody. rewrite Hget. reflexivity.
Qed.

(** The whole loop: one line per entry, appended in order, and the
    totals of the entries added to the running totals. *)
Lemma loop_fold (dailyStats : list (jsstring * DailyStats))
    (tier : TableWidthTier) (dates : list jsstring) (st : LoopState) :
  fold_left (loopBody toFixed toString dailyStats tier) dates st
  = {| st_output :=
         st_output st
         ++ List.concat
              (map (fun e => dayLine toFixed toString (columnsOf tier) e ++ newline)
                 (entriesOf dailyStats dates));
       st_totalInput :=
         fst (fst (fold_left addDay (entriesOf dailyStats dates)
                     (st_totalInput st, st_totalOutput st, st_totalCost st)));
       st_totalOutput :=
         snd (fst (fold_left addDay (entriesOf dailyStats dates)
                     (st_totalInput st, st_totalOutput st, st_totalCost st)));
       st_totalCost :=
         snd (fold_left addDay (entriesOf dailyStats dates)
                (st_totalInput st, st_totalOutput st, st_totalCost st)) |}.
Proof.
  revert st; induction dates as [|d dates IH]; intro st.
  - destruct st. cbn. rewrite app_nil_r. reflexivity.
  - cbn [fold_left]. unfold entriesOf. cbn [flat_map].
    fold (entriesOf dailyStats dates).
    destruct (Map_get d dailyStats) as [s|] eqn:Hget.
    + rewrite (loopBody_found _ _ _ _ _ Hget), IH.
      cbn [st_output st_totalInput st_totalOutput st_totalCost app map
           List.concat fold_left addDay snd].
      rewrite <- !app_assoc. reflexivity.
    + rewrite (loopBody_missing _ _ _ _ Hget), IH. reflexivity.
Qed.

(** The rendered text is a table over the columns of the tier. *)
Lemma renderUsageTable_table (dailyStats : list (jsstring * DailyStats))
    (width : option Z) :
  dailyStats <> [] ->
  renderUsageTable toFixed toString localeCompare dailyStats width
  = tableOver toFixed toString (columnsOf (tierOf width))
      (entriesOf dailyStats (sort localeCompare (map fst dailyStats))).
Proof.
  intro Hne. unfold renderUsageTable. cbv zeta.
  rewrite UStrFacts.sort_length, length_map.
  destruct dailyStats as [|e0 rest]; [contradiction|].
  cbn [List.length Nat.eqb].
  change (match width with
          | Some w => if (w =? 0)%Z then wide else getTableWidthTier w
          | None => wide
          end) with (tierOf width).
  set (dates := sort localeCompare (map fst (e0 :: rest))).
  unfold tableOver. rewrite !map_app, !concat_app, map_map.
  destruct (tierOf width);
    cbv [tier_eqb negb colModels colTotal colDate colCost];
    cbv beta iota;
    rewrite loop_fold;
    cbn [st_output st_totalInput st_totalOutput st_totalCost];
    destruct (fold_left addDay (entriesOf (e0 :: rest) dates) (0, 0, 0))
      as [[ti to] tc];
    cbv [tier_eqb negb columnsOf shown filter joinCells fold_right
         headerCell totalCell borderCell columnWidth fst snd];
    cbn [map List.concat];
    rewrite <- ?app_assoc; rewrite ?app_nil_r; rewrite <- ?app_assoc;
    reflexivity.
Qed.

Lemma Map_get_key {V} (m : list (jsstring * V)) (d : jsstring) :
  In d (map fst m) -> exists s, Map_get d m = Some s.
Proof.
  induction m as [|[k x] m IH]; simpl; [intros []|].
  intros [<-|Hin].
  - rewrite UStrFacts.eqb_refl. exists x. reflexivity.
  - destruct (eqb k d); [exists x; reflexivity|exact (IH Hin)].
Qed.

Lemma Map_get_entry {V} (m : list (jsstring * V)) (d : jsstring) (s : V) :
  NoDup (map fst m) -> In (d, s) m -> Map_get d m = Some s.
Proof.
  induction m as [|[k x] m IH]; simpl; [intros _ []|].
  intros Hnodup Hin. apply NoDup_cons_iff in Hnodup.
  destruct Hnodup as [Hfresh Hnodup].
  destruct (eqb k d) eqn:Hk.
  - apply UStrFacts.eqb_eq in Hk. subst k.
    destruct Hin as [Heq|Hin]; [injection Heq as ->; reflexivity|].
    exfalso. apply Hfresh. apply in_map_iff. exists (d, s). auto.
  - destruct Hin as [Heq|Hin]; [|exact (IH Hnodup Hin)].
    injection Heq as -> ->. rewrite UStrFacts.eqb_refl in Hk. discriminate.
Qed.


Lemma lines_end_with_newline (lines : list jsstring) :
  lines <> [] ->
  exists before,
    List.concat (map (fun line => line ++ newline) lines) = before ++ newline.
Proof.
  intro Hne. destruct (exists_last Hne) as (front & lastLine & ->).
  exists (List.concat (map (fun line => line ++ newline) front) ++ lastLine).
  rewrite map_app, concat_app. cbn [map List.concat].
  rewrite app_nil_r, app_assoc. reflexivity.
Qed.

(** The line of an entry stands in the table between two newlines. *)
Lemma tableOver_has_line (cols : list Column)
    (entries : list (jsstring * DailyStats)) (e : jsstring * DailyStats) :
  In e entries ->
  exists before after,
    tableOver toFixed toString cols entries
    = before ++ newline ++ dayLine toFixed toString cols e ++ newline ++ after.
Proof.
  intro Hin. destruct (in_split _ _ Hin) as (l1 & l2 & ->).
  unfold tableOver.
  rewrite (map_app (dayLine toFixed toString cols)). cbn [map].
  rewrite <- !app_assoc.
  rewrite (app_assoc _ (map (dayLine toFixed toString cols) l1)).
  rewrite (map_app (fun line => line ++ newline)), concat_app.
  match goal with
  | |- context [List.concat (map ?f (?hd ++ map (dayLine toFixed toString cols) l1))] =>
      destruct (lines_end_with_newline (hd ++ map (dayLine toFixed toString cols) l1))
        as [before Hbefore]; [discriminate|]
  end.
  rewrite Hbefore. cbn [app map List.concat].
  eexists before, _. rewrite <- !app_assoc. reflexivity.
Qed.

Lemma Map_get_map {V W} (f : V -> W) (m : list (jsstring * V))
    (d : jsstring) :
  Map_get d (map (fun e => (fst e, f (snd e))) m)
  = option_map f (Map_get d m).
Proof.
  induction m as [|[k x] m IH]; simpl; [reflexivity|].
  destruct (eqb k d); [reflexivity|exact IH].
Qed.

(** The loop does not see the models it does not show. *)
Lemma loopBody_onlyLeastModel (dailyStats : list (jsstring * DailyStats))
    (tier : TableWidthTier) (st : LoopState) (d : jsstring) :
  loopBody toFixed toString
    (map (fun e => (fst e, onlyLeastModel (snd e))) dailyStats) tier st d
  = loopBody toFixed toString dailyStats tier st d.
Proof.
  unfold loopBody. rewrite Map_get_map.
  destruct (Map_get d dailyStats) as [s|]; [|reflexivity].
  cbn [option_map onlyLeastModel models input output cacheRead cacheWrite
       cost].
  destruct (sort compare_units (models s)) as [|m rest]; reflexivity.
Qed.

Lemma loop_onlyLeastModel (dailyStats : list (jsstring * DailyStats))
    (tier : TableWidthTier) (dates : list jsstring) (st : LoopState) :
  fold_left
    (loopBody toFixed toString
       (map (fun e => (fst e, onlyLeastModel (snd e))) dailyStats) tier)
    dates st
  = fold_left (loopBody toFixed toString dailyStats tier) dates st.
Proof.
  revert st; induction dates as [|d dates IH]; intro st; [reflexivity|].
  cbn [fold_left]. rewrite loopBody_onlyLeastModel. apply IH.
Qed.

Lemma renderUsageTable_onlyLeastModel
    (dailyStats : list (jsstring * DailyStats)) (width : option Z) :
  renderUsageTable toFixed toString localeCompare
    (map (fun e => (fst e, onlyLeastModel (snd e))) dailyStats) width
  = renderUsageTable toFixed toString localeCompare dailyStats width.
Proof.
  unfold renderUsageTable. rewrite map_map. cbn [fst].
  change (map (fun x : jsstring * DailyStats => fst x) dailyStats)
    with (map fst dailyStats).
  cbv zeta.
  destruct (List.length (sort localeCompare (map fst dailyStats)) =? 0)%nat;
    [reflexivity|].
  destruct (match width with
            | Some w => if (w =? 0)%Z then wide else getTableWidthTier w
            | None => wide
            end);
    cbv [tier_eqb negb]; cbv beta iota;
    rewrite loop_onlyLeastModel; reflexivity.
Qed.



Lemma lowerUnit_noUpperCase (m : jsstring) :
  noUpperCase m -> map lowerUnit m = m.
Proof.
  induction 1 as [|u m Hu _ IH]; [reflexivity|].
  cbn [map]. rewrite IH. f_equal. unfold lowerUnit.
  destruct (N.leb_spec 65 u), (N.leb_spec u 90); cbn [andb];
    try reflexivity.
  exfalso. destruct Hu; lia.
Qed.

(** Without capitals the two orders give the same first model. *)
Lemma leastModel_alphabetical (ms : list jsstring) :
  (forall m, In m ms -> noUpperCase m) ->
  leastModel ms = alphabeticallyFirst ms.
Proof.
  intro Hlower. unfold leastModel, alphabeticallyFirst. f_equal.
  apply UStrFacts.sort_ext. intros a b Ha Hb. unfold compare_alphabetical.
  rewrite !lowerUnit_noUpperCase by (apply Hlower; assumption).
  reflexivity.
Qed.

(** C10, as amended -- in the wide tier only the first model of a day is
    shown, first in the order of the default sort.  For each day of the
    aggregate, the table has that day's line, whose models cell holds the
    first 28 code units of the least model of the day's set in the order
    of code units, in which every capital precedes every small letter;
    that model belongs to the set and precedes every model of it, and it
    is the alphabetically first one when no model id of the day has a
    capital.  What is shown is a prefix of that model id, all of it up to
    28 code units and exactly 28 of a longer one, so that the cell always
    has 30 code units.  The table is the same as the one rendered after
    every other model has been dropped from every day. *)
Theorem wide_table_shows_first_model_only
    (dailyStats : list (jsstring * DailyStats)) (width : option Z)
    (d : jsstring) (s : DailyStats) :
  tierOf width = wide ->
  NoDup (map fst dailyStats) ->
  In (d, s) dailyStats ->
  (exists before after,
      renderUsageTable toFixed toString localeCompare dailyStats width
      = before ++ newline
        ++ (v ++ padRight (lit " " ++ d) 12
            ++ v ++ padRight
                      (lit " " ++ substring0 28 (leastModel (models s))) 30
            ++ v ++ padLeft
                      (formatNumber toFixed toString
                         (input s + cacheRead s + cacheWrite s + output s)
                       ++ lit " ") 12
            ++ v ++ padLeft (formatCost toFixed (cost s) ++ lit " ") 10
            ++ v)
        ++ newline ++ after)
  /\ (models s <> [] ->
      In (leastModel (models s)) (models s)
      /\ forall m, In m (models s) ->
           (compare_units (leastModel (models s)) m <= 0)%Z)
  /\ renderUsageTable toFixed toString localeCompare
       (map (fun e => (fst e, onlyLeastModel (snd e))) dailyStats) width
     = renderUsageTable toFixed toString localeCompare dailyStats width
  /\ (exists rest,
        leastModel (models s)
        = substring0 28 (leastModel (models s)) ++ rest
        /\ List.length (substring0 28 (leastModel (models s)))
           = Nat.min 28 (List.length (leastModel (models s)))
        /\ ((List.length (leastModel (models s)) <= 28)%nat -> rest = [])
        /\ ((28 < List.length (leastModel (models s)))%nat -> rest <> []))
  /\ List.length
       (padRight (lit " " ++ substring0 28 (leastModel (models s))) 30)
     = 30%nat
  /\ ((forall m, In m (models s) -> noUpperCase m) ->
      leastModel (models s) = alphabeticallyFirst (models s)).
Proof.
  intros Hwide Hnodup Hin. split; [|split; [|split; [|split; [|split]]]].
  - rewrite renderUsageTable_table by (intros ->; destruct Hin).
    rewrite Hwide.
    apply (tableOver_has_line (columnsOf wide) _ (d, s)).
    unfold entriesOf. apply in_flat_map. exists d. split.
    + apply UStrFacts.sort_In. apply in_map_iff. exists (d, s). auto.
    + rewrite (Map_get_entry _ _ _ Hnodup Hin). left. reflexivity.
  - intro Hmodels. unfold leastModel.
    apply UStrFacts.sort_head_least.
    + intro a. rewrite UStrFacts.compare_units_refl. lia.
    + apply UStrFacts.compare_units_total.
    + apply UStrFacts.compare_units_trans.
    + exact Hmodels.
  - apply renderUsageTable_onlyLeastModel.
  - exists (skipn 28 (leastModel (models s))). unfold substring0.
    split; [symmetry; apply firstn_skipn|].
    split; [apply length_firstn|]. split.
    + intro Hshort. apply skipn_all2. exact Hshort.
    + intros Hlong Hnil. apply (f_equal (@List.length N)) in Hnil.
      rewrite length_skipn in Hnil. cbn [List.length] in Hnil. lia.
  - unfold padRight, padEnd, substring0.
    rewrite !length_app, length_firstn.
    assert (Hspaces : forall n, List.length (repeat_str space n) = n).
    { induction n as [|n IH]; cbn; [reflexivity|]. f_equal. exact IH. }
    rewrite Hspaces. cbn [lit list_ascii_of_string map List.length]. lia.
  - apply leastModel_alphabetical.
Qed.

End WithNumberFormat.

Example tiers_of_the_test :
  map getTableWidthTier [50; 104; 105; 139; 140; 200]%Z
  = [narrow; narrow; medium; medium; wide; wide].
Proof. reflexivity. Qed.

Example empty_data :
  renderUsageTable toFixedExact toStringInteger compare_units [] None
  = lit "No usage data".
Proof. reflexivity. Qed.

Example formats_of_the_test :
  formatNumber toFixedExact toStringInteger 1500000 = lit "1.5M"
  /\ formatNumber toFixedExact toStringInteger 700 = lit "700"
  /\ formatCost toFixedExact (12345 # 100) = lit "$123.45"
  /\ formatCost toFixedExact (1099 # 100) = lit "$10.99".
Proof. repeat split; reflexivity. Qed.

Example february_wide_line :
  dayLine toFixedExact toStringInteger (columnsOf wide)
    (day "2025-02-11" ["gpt-4o"; "claude-opus-4-5"; "claude-sonnet-4"]
       1000000 500000 (12345 # 100))
  = v ++ lit " 2025-02-11 "
    ++ v ++ lit " claude-opus-4-5              "
    ++ v ++ lit "       1.5M "
    ++ v ++ lit "  $123.45 " ++ v.
Proof. reflexivity. Qed.

Example february_narrow_table :
  renderUsageTable toFixedExact toStringInteger compare_units
    februaryStats (Some 90%Z)
  = tl ++ repeat_str h 12 ++ mt ++ repeat_str h 10 ++ tr ++ newline
    ++ v ++ lit " Date       " ++ v ++ lit "     Cost " ++ v ++ newline
    ++ ml ++ repeat_str h 12 ++ mm ++ repeat_str h 10 ++ mr ++ newline
    ++ v ++ lit " 2025-02-11 " ++ v ++ lit "  $123.45 " ++ v ++ newline
    ++ ml ++ repeat_str h 12 ++ mm ++ repeat_str h 10 ++ mr ++ newline
    ++ v ++ lit " Total      " ++ v ++ lit "  $123.45 " ++ v ++ newline
    ++ bl ++ repeat_str h 12 ++ mb ++ repeat_str h 10 ++ br.
Proof. reflexivity. Qed.


(** C10, as the claim states it, fails: of the models [claude-sonnet-4],
    [MiniMax-M2] and [gpt-5] the alphabetically first is
    [claude-sonnet-4], yet the wide table shows [MiniMax-M2], whose capital
    precedes every small letter in the order of the default sort. *)
Lemma capital_model_shown_before_alphabetical_first :
  renderUsageTable toFixedExact toStringInteger compare_units
    mixedCaseStats (Some 180%Z)
  = tl ++ repeat_str h 12 ++ mt ++ repeat_str h 30 ++ mt ++ repeat_str h 12
       ++ mt ++ repeat_str h 10 ++ tr ++ newline
    ++ v ++ lit " Date       " ++ v ++ lit " Models                       "
       ++ v ++ lit "     Tokens " ++ v ++ lit "     Cost " ++ v ++ newline
    ++ ml ++ repeat_str h 12 ++ mm ++ repeat_str h 30 ++ mm ++ repeat_str h 12
       ++ mm ++ repeat_str h 10 ++ mr ++ newline
    ++ v ++ lit " 2025-02-11 " ++ v ++ lit " MiniMax-M2                   "
       ++ v ++ lit "       1.5M " ++ v ++ lit "  $123.45 " ++ v ++ newline
    ++ ml ++ repeat_str h 12 ++ mm ++ repeat_str h 30 ++ mm ++ repeat_str h 12
       ++ mm ++ repeat_str h 10 ++ mr ++ newline
    ++ v ++ lit " Total      " ++ v ++ lit "                              "
       ++ v ++ lit "       1.5M " ++ v ++ lit "  $123.45 " ++ v ++ newline
    ++ bl ++ repeat_str h 12 ++ mb ++ repeat_str h 30 ++ mb ++ repeat_str h 12
       ++ mb ++ repeat_str h 10 ++ br
  /\ alphabeticallyFirst
       (map lit ["claude-sonnet-4"; "MiniMax-M2"; "gpt-5"]%string)
     = lit "claude-sonnet-4"
  /\ leastModel (map lit ["claude-sonnet-4"; "MiniMax-M2"; "gpt-5"]%string)
     = lit "MiniMax-M2"
  /\ (compare_alphabetical (lit "claude-sonnet-4") (lit "MiniMax-M2") < 0)%Z
  /\ substring0 28
       (alphabeticallyFirst
          (map lit ["claude-sonnet-4"; "MiniMax-M2"; "gpt-5"]%string))
     <> substring0 28
          (leastModel
             (map lit ["claude-sonnet-4"; "MiniMax-M2"; "gpt-5"]%string)).
Proof.
  split; [reflexivity|]. split; [reflexivity|]. split; [reflexivity|].
  split; [reflexivity|]. discriminate.
Qed.

Lemma wide_table_shows_first_model_only_witness :
  (exists before after,
      renderUsageTable toFixedExact toStringInteger compare_units
        longNameStats (Some 180%Z)
      = before ++ newline
        ++ (v ++ lit " 2025-02-11 "
            ++ v ++ lit " openrouter/anthropic/claude- "
            ++ v ++ lit "       1.5M "
            ++ v ++ lit "  $123.45 " ++ v)
        ++ newline ++ after)
  /\ ((map lit ["qwen3-coder"; "openrouter/anthropic/claude-3-5-sonnet-20241022"]%string) <> [] ->
      In (lit "openrouter/anthropic/claude-3-5-sonnet-20241022")
        (map lit ["qwen3-coder"; "openrouter/anthropic/claude-3-5-sonnet-20241022"]%string)
      /\ forall m,
           In m (map lit ["qwen3-coder"; "openrouter/anthropic/claude-3-5-sonnet-20241022"]%string) ->
           (compare_units (lit "openrouter/anthropic/claude-3-5-sonnet-20241022") m <= 0)%Z)
  /\ renderUsageTable toFixedExact toStringInteger compare_units
       [day "2025-02-11" ["openrouter/anthropic/claude-3-5-sonnet-20241022"]
          1000000 500000 (12345 # 100)]
       (Some 180%Z)
     = renderUsageTable toFixedExact toStringInteger compare_units
         longNameStats (Some 180%Z)
  /\ (exists rest,
        (lit "openrouter/anthropic/claude-3-5-sonnet-20241022")
        = lit "openrouter/anthropic/claude-" ++ rest
        /\ List.length (lit "openrouter/anthropic/claude-")
           = Nat.min 28 47
        /\ ((47 <= 28)%nat -> rest = [])
        /\ ((28 < 47)%nat -> rest <> []))
  /\ List.length (lit " openrouter/anthropic/claude- ") = 30%nat
  /\ ((forall m, In m (map lit ["qwen3-coder"; "openrouter/anthropic/claude-3-5-sonnet-20241022"]%string) -> noUpperCase m) ->
      (lit "openrouter/anthropic/claude-3-5-sonnet-20241022")
      = alphabeticallyFirst (map lit ["qwen3-coder"; "openrouter/anthropic/claude-3-5-sonnet-20241022"]%string)).
Proof.
  apply (wide_table_shows_first_model_only toFixedExact toStringInteger
           compare_units longNameStats (Some 180%Z)
           (lit "2025-02-11")
           (snd (day "2025-02-11"
                   ["qwen3-coder";
                    "openrouter/anthropic/claude-3-5-sonnet-20241022"]
                   1000000 500000 (12345 # 100)))).
  - reflexivity.
  - repeat constructor. intros [].
  - left. reflexivity.
Defined.

End UsageTableFacts.

(* ===================================================================== *)
(** ** Further facts about the loaders *)
(* ===================================================================== *)

Module LoaderMoreFacts.

Import Loader LoaderSpec FilterSpec LoaderMore.

Section WithParsers.

Variable JSON_parse : string -> Outcome MessageData.
Variable JSON_parse_file : string -> Outcome (option MessageJson).

(** The common body of the three SQLite loaders, case by case. *)
Lemma sqlite_body_cases (s : Storage) (where_ : MessageRow -> bool)
    (pf : option string) (line : Thrown -> string) (out : Console) :
  try_catch
    (db <- openDb s ;;
     try_finally
       (rows <- query_all db where_ ;;
        msgs <- mapM (rowToMessage JSON_parse) rows ;;
        ret (filter (fun msg => isValidMessage msg pf) msgs))
       (close db))
    (fun err => console_error (line err) ;;; ret []) out
  = match s with
    | Unreachable err => (Returned [], (out ++ [line err])%list)
    | Opened (Malformed err) => (Returned [], (out ++ [line err])%list)
    | Opened (MessageTable rows) =>
        match decodeRows JSON_parse (filter where_ rows) with
        | Returned msgs =>
            (Returned (filter (fun msg => isValidMessage msg pf) msgs), out)
        | Threw err => (Returned [], (out ++ [line err])%list)
        end
    end.
Proof.
  destruct s as [err|[err|rows]]; try reflexivity.
  unfold try_catch, try_finally, bind, openDb, query_all, ret, close.
  cbv beta iota. rewrite LoaderFacts.mapM_rowToMessage.
  destruct (decodeRows JSON_parse (filter where_ rows)); reflexivity.
Qed.

Lemma loadMessages_cases (s : Storage) (pf : option string) (out : Console) :
  loadMessages JSON_parse s pf out
  = match s with
    | Unreachable err =>
        (Returned [],
         (out ++ [("Error reading messages from database: "
                   ++ String_of err)%string])%list)
    | Opened (Malformed err) =>
        (Returned [],
         (out ++ [("Error reading messages from database: "
                   ++ String_of err)%string])%list)
    | Opened (MessageTable rows) =>
        match decodeRows JSON_parse (filter (fun _ => true) rows) with
        | Returned msgs =>
            (Returned (filter (fun msg => isValidMessage msg pf) msgs), out)
        | Threw err =>
            (Returned [],
             (out ++ [("Error reading messages from database: "
                       ++ String_of err)%string])%list)
        end
    end.
Proof.
  unfold loadMessages.
  apply (sqlite_body_cases s (fun _ => true) pf
           (fun err => ("Error reading messages from database: "
                        ++ String_of err)%string)).
Qed.

Lemma loadRecentMessages_cases (now : Z) (s : Storage) (hb : option Z)
    (pf : option string) (out : Console) :
  loadRecentMessages JSON_parse now s hb pf out
  = match s with
    | Unreachable err =>
        (Returned [],
         (out ++ [("Error reading recent messages: "
                   ++ String_of err)%string])%list)
    | Opened (Malformed err) =>
        (Returned [],
         (out ++ [("Error reading recent messages: "
                   ++ String_of err)%string])%list)
    | Opened (MessageTable rows) =>
        match decodeRows JSON_parse
                (filter (fun r => time_created r >=? recentCutoff now hb)
                   rows) with
        | Returned msgs =>
            (Returned (filter (fun msg => isValidMessage msg pf) msgs), out)
        | Threw err =>
            (Returned [],
             (out ++ [("Error reading recent messages: "
                       ++ String_of err)%string])%list)
        end
    end.
Proof.
  unfold loadRecentMessages. cbv zeta.
  apply (sqlite_body_cases s
           (fun r => time_created r >=? recentCutoff now hb) pf
           (fun err => ("Error reading recent messages: "
                        ++ String_of err)%string)).
Qed.

Lemma filter_all {A} (p : A -> bool) (l : list A) :
  (forall x, In x l -> p x = true) -> filter p l = l.
Proof.
  induction l as [|x l IH]; simpl; intro H; [reflexivity|].
  rewrite (H x (or_introl eq_refl)). f_equal. apply IH.
  intros y Hy. apply H. right. exact Hy.
Qed.

Lemma decodeRows_app (a b : list MessageRow) :
  decodeRows JSON_parse (a ++ b)
  = match decodeRows JSON_parse a with
    | Threw err => Threw err
    | Returned ma =>
        match decodeRows JSON_parse b with
        | Threw err => Threw err
        | Returned mb => Returned (ma ++ mb)%list
        end
    end.
Proof.
  induction a as [|row a IH]; simpl.
  - destruct (decodeRows JSON_parse b); reflexivity.
  - destruct (JSON_parse (data row)); [|reflexivity].
    rewrite IH.
    destruct (decodeRows JSON_parse a); [|reflexivity].
    destruct (decodeRows JSON_parse b); reflexivity.
Qed.

(** X1 -- Messages of a recent load.  When [loadRecentMessages] succeeds
    (it logs nothing), a message is returned exactly when it is the
    message of a row of the table that was created at or after the
    cutoff, [hoursBack] hours (24 when not given) before [now], and the
    validity filter accepts it. *)
Theorem recent_load_returns_the_recent_rows (now : Z)
    (rows : list MessageRow) (hoursBack : option Z) (pf : option string)
    (out : Console) (msgs : list MessageJson) (msg : MessageJson) :
  loadRecentMessages JSON_parse now (Opened (MessageTable rows)) hoursBack
    pf out = (Returned msgs, out) ->
  In msg msgs
  <-> exists row d,
        In row rows
        /\ now - match hoursBack with Some h => h | None => 24 end
                 * 3600000 <= time_created row
        /\ JSON_parse (data row) = Returned d
        /\ msg = messageOfRow row d
        /\ isValidMessage msg pf = true.
Proof.
  rewrite loadRecentMessages_cases.
  destruct (decodeRows JSON_parse
              (filter (fun r => time_created r >=? recentCutoff now hoursBack)
                 rows)) as [ms|err] eqn:Hdec.
  - intro H; injection H as <-.
    rewrite (LoaderFacts.delivered_iff JSON_parse _ _ pf _ msg Hdec).
    unfold recentCutoff.
    split; intros (row & d & Hrow & Hwhere & Hrest);
      exists row, d; (split; [exact Hrow|]); (split; [|exact Hrest]).
    + apply Z.geb_le in Hwhere. lia.
    + apply Z.geb_le. lia.
  - intro H; injection H as _ Hout.
    exfalso; exact (LoaderFacts.console_grows_ne _ _ Hout).
Qed.

(** X2 -- Messages of an incremental load.  When
    [loadMessagesIncremental] succeeds (it logs nothing), a message is
    returned exactly when it is the message of a row created strictly
    after the cursor and the validity filter accepts it.  So every
    accepted row above the cursor is in the batch, several rows that share
    one creation time included, and a row at or below the cursor is never
    returned. *)
Theorem incremental_load_returns_the_newer_rows (rows : list MessageRow)
    (c : CursorState) (pf : option string) (out : Console)
    (r : LoadResult) (msg : MessageJson) :
  loadMessagesIncremental JSON_parse (Opened (MessageTable rows)) c pf out
  = (Returned r, out) ->
  In msg (messages r)
  <-> exists row d,
        In row rows
        /\ lastTimestamp c < time_created row
        /\ JSON_parse (data row) = Returned d
        /\ msg = messageOfRow row d
        /\ isValidMessage msg pf = true.
Proof.
  intro Hrun.
  destruct (LoaderFacts.quiet_return_means_success _ _ _ _ _ _ Hrun)
    as (rows' & ms & Hs & Hdec & ->).
  injection Hs as <-. cbn [messages].
  unfold newerThan in Hdec. rewrite (LoaderFacts.delivered_iff JSON_parse _ _ pf _ msg Hdec).
  split; intros (row & d & Hrow & Hwhere & Hrest);
    exists row, d; (split; [exact Hrow|]); (split; [|exact Hrest]).
  - rewrite Z.gtb_ltb in Hwhere. apply Z.ltb_lt in Hwhere. exact Hwhere.
  - rewrite Z.gtb_ltb. apply Z.ltb_lt. exact Hwhere.
Qed.

(** X3 -- A fresh cursor loads everything.  When every row of the table
    was created after time zero, [loadMessagesIncremental] from
    [createCursor()] returns the very messages that [loadMessages]
    returns, whether the read succeeds or fails. *)
Theorem fresh_cursor_loads_what_full_load_does (rows : list MessageRow)
    (pf : option string) (out : Console) :
  (forall row, In row rows -> 0 < time_created row) ->
  exists r out1 out2,
    loadMessagesIncremental JSON_parse (Opened (MessageTable rows))
      createCursor pf out = (Returned r, out1)
    /\ loadMessages JSON_parse (Opened (MessageTable rows)) pf out
       = (Returned (messages r), out2).
Proof.
  intro Hpos.
  rewrite LoaderFacts.loadMessagesIncremental_cases, loadMessages_cases.
  assert (Hnew : newerThan createCursor rows = rows).
  { apply filter_all. intros row Hin. cbn [createCursor lastTimestamp].
    rewrite Z.gtb_ltb. apply Z.ltb_lt. apply Hpos, Hin. }
  assert (Hall : filter (fun _ : MessageRow => true) rows = rows)
    by (apply filter_all; reflexivity).
  rewrite Hnew, Hall.
  destruct (decodeRows JSON_parse rows) as [msgs|err];
    eexists; eexists; eexists; split; reflexivity.
Qed.

(** X4 -- Chained loads add up to the full load.  Take a table whose rows
    were all created after time zero, load it incrementally from
    [createCursor()], then append rows that are all stamped after the
    returned checkpoint and load again from that checkpoint.  If both
    loads succeed, the two batches, in order, are exactly what
    [loadMessages] returns on the grown table. *)
Theorem chained_loads_equal_full_load (rows added : list MessageRow)
    (pf : option string) (out : Console) (r1 r2 : LoadResult) :
  (forall row, In row rows -> 0 < time_created row) ->
  loadMessagesIncremental JSON_parse (Opened (MessageTable rows))
    createCursor pf out = (Returned r1, out) ->
  (forall row, In row added ->
     lastTimestamp (cursor r1) < time_created row) ->
  loadMessagesIncremental JSON_parse (Opened (MessageTable (rows ++ added)))
    (cursor r1) pf out = (Returned r2, out) ->
  loadMessages JSON_parse (Opened (MessageTable (rows ++ added))) pf out
  = (Returned (messages r1 ++ messages r2)%list, out).
Proof.
  intros Hpos Hfirst Hlater Hsecond.
  destruct (LoaderFacts.quiet_return_means_success _ _ _ _ _ _ Hfirst)
    as (rows1 & m1 & Hs1 & Hdec1 & ->).
  injection Hs1 as <-.
  destruct (LoaderFacts.quiet_return_means_success _ _ _ _ _ _ Hsecond)
    as (rows2 & m2 & Hs2 & Hdec2 & ->).
  injection Hs2 as <-. cbn [cursor messages lastTimestamp] in *.
  assert (Hnew : newerThan createCursor rows = rows).
  { apply filter_all. intros row Hin. cbn [createCursor lastTimestamp].
    rewrite Z.gtb_ltb. apply Z.ltb_lt. apply Hpos, Hin. }
  rewrite Hnew in *.
  assert (Hsplit :
            newerThan
              {| lastTimestamp := maxCreated rows (lastTimestamp createCursor) |}
              (rows ++ added) = added).
  { unfold newerThan. rewrite filter_app.
    rewrite (LoaderFacts.filter_nothing _ rows).
    - apply filter_all. intros row Hin. cbn [lastTimestamp].
      rewrite Z.gtb_ltb. apply Z.ltb_lt. apply Hlater, Hin.
    - intros row Hin. cbn [lastTimestamp]. rewrite Z.gtb_ltb.
      apply Z.ltb_ge. apply LoaderFacts.maxCreated_covers, Hin. }
  rewrite Hsplit in Hdec2.
  rewrite loadMessages_cases.
  rewrite (filter_all (fun _ : MessageRow => true)) by reflexivity.
  rewrite decodeRows_app, Hdec1, Hdec2, filter_app. reflexivity.
Qed.

Lemma accepted_without_filter (msg : MessageJson) (pf : option string) :
  isValidMessage msg pf = true -> isValidMessage msg None = true.
Proof.
  unfold isValidMessage.
  destruct (role msg =? "user")%string; [discriminate|].
  destruct (tokens msg); [|discriminate]. reflexivity.
Qed.

(** X5 -- The provider filter does not touch the checkpoint.  On the same
    store and cursor, a load with a provider filter and a load without
    one return the same cursor and log the same; the filtered messages are
    among the unfiltered ones. *)
Theorem provider_filter_leaves_cursor_alone (s : Storage) (c : CursorState)
    (pf : option string) (out out1 out2 : Console) (r1 r2 : LoadResult) :
  loadMessagesIncremental JSON_parse s c pf out = (Returned r1, out1) ->
  loadMessagesIncremental JSON_parse s c None out = (Returned r2, out2) ->
  cursor r1 = cursor r2
  /\ out1 = out2
  /\ incl (messages r1) (messages r2).
Proof.
  rewrite !LoaderFacts.loadMessagesIncremental_cases.
  destruct s as [err|[err|rows]];
    try (intros H1 H2; injection H1 as <- <-; injection H2 as <- <-;
         repeat split; intros m []).
  destruct (decodeRows JSON_parse (newerThan c rows)) as [msgs|err];
    intros H1 H2; injection H1 as <- <-; injection H2 as <- <-;
    (split; [reflexivity|]); (split; [reflexivity|]).
  - intros m Hm. cbn [messages] in *. apply filter_In in Hm.
    apply filter_In. split; [apply Hm|].
    apply (accepted_without_filter m pf), Hm.
  - intros m [].
Qed.

(** X6 -- An empty provider filter is no filter.  On every load path,
    passing the empty string as provider filter gives what passing no
    filter gives. *)
Theorem empty_filter_is_no_filter (path : LoadPath) (out : Console) :
  loadVia JSON_parse JSON_parse_file path (Some "") out
  = loadVia JSON_parse JSON_parse_file path None out.
Proof.
  destruct path; reflexivity.
Qed.

Lemma collectFilePaths_throws (sessionDirs : list FileLoader.DirEntry)
    (err : Thrown) (acc : list FileLoader.FileEntry) (out : Console) :
  scanThrows sessionDirs err ->
  FileLoader.collectFilePaths acc sessionDirs out = (Threw err, out).
Proof.
  intro Hthrows. revert acc.
  induction Hthrows as [dir rest err Hstat
                       |dir rest err Hstat Hlist
                       |dir rest err Hstat _ IH
                       |dir rest listing err Hstat Hlist _ IH];
    intro acc; cbn [FileLoader.collectFilePaths];
    unfold bind at 1; unfold FileLoader.collectSession;
    unfold bind at 1; unfold lift at 1; rewrite Hstat.
  - reflexivity.
  - cbn [negb]. unfold bind, lift. rewrite Hlist. reflexivity.
  - cbn [negb]. unfold ret at 1. apply IH.
  - cbn [negb]. unfold bind at 1. unfold lift at 1. rewrite Hlist.
    unfold ret at 1. apply IH.
Qed.

Lemma collectFilePaths_succeeds (sessionDirs : list FileLoader.DirEntry)
    (acc : list FileLoader.FileEntry) (out : Console) :
  scanSucceeds sessionDirs ->
  FileLoader.collectFilePaths acc sessionDirs out
  = (Returned (acc ++ jsonFilesOf sessionDirs)%list, out).
Proof.
  intro Hok. revert acc.
  induction Hok as [|dir rest Hdir _ IH]; intro acc.
  - cbn. rewrite app_nil_r. reflexivity.
  - cbn [FileLoader.collectFilePaths jsonFilesOf flat_map].
    fold (jsonFilesOf rest).
    unfold bind at 1; unfold FileLoader.collectSession;
      unfold bind at 1; unfold lift at 1.
    destruct Hdir as [Hstat|[Hstat [listing Hlist]]]; rewrite Hstat.
    + cbn [negb]. unfold ret at 1. rewrite IH. reflexivity.
    + cbn [negb]. unfold bind at 1. unfold lift at 1. rewrite Hlist.
      unfold ret at 1. rewrite IH, app_assoc. reflexivity.
Qed.

(** Reading a file never throws and never logs. *)
Lemma read_file (f : FileLoader.FileEntry) (out : Console) :
  try_catch (FileLoader.readJsonFile JSON_parse_file f) (fun _ => ret None)
    out
  = (Returned (decodeFile JSON_parse_file f), out).
Proof.
  unfold try_catch, FileLoader.readJsonFile, bind, lift, ret, decodeFile.
  destruct (FileLoader.file_content f) as [content|err]; [|reflexivity].
  destruct (JSON_parse_file content); reflexivity.
Qed.

Lemma read_files (files : list FileLoader.FileEntry) (out : Console) :
  mapM (fun filePath =>
          try_catch (FileLoader.readJsonFile JSON_parse_file filePath)
            (fun _ => ret None))
    files out
  = (Returned (map (decodeFile JSON_parse_file) files), out).
Proof.
  induction files as [|f files IH]; [reflexivity|].
  cbn [mapM map]. unfold bind at 1. rewrite read_file.
  unfold bind at 1. rewrite IH. reflexivity.
Qed.

Lemma filter_guard_as_filter (pf : option string)
    (results : list (option MessageJson)) :
  FileLoader.filter_guard
    (fun r => match r with
              | None => false
              | Some msg => isValidMessage msg pf
              end)
    results
  = filter (fun msg => isValidMessage msg pf)
      (flat_map (fun r => match r with Some msg => [msg] | None => [] end)
         results).
Proof.
  induction results as [|[msg|] results IH]; cbn;
    [reflexivity| |exact IH].
  destruct (isValidMessage msg pf); rewrite IH; reflexivity.
Qed.

(** X7 -- The directory scan skips what it cannot use.  When every entry of
    the message directory can be examined and every session directory can
    be listed, [loadMessages] logs nothing and returns exactly the
    accepted messages of the [.json] files of the session directories, in
    directory order: entries that are not directories, names that do not
    end in [.json], and files that cannot be read, are not JSON or hold
    [null] contribute nothing and do not stop the scan. *)
Theorem directory_scan_skips_unusable_files
    (sessionDirs : list FileLoader.DirEntry) (pf : option string)
    (out : Console) :
  scanSucceeds sessionDirs ->
  FileLoader.loadMessages JSON_parse_file (Returned sessionDirs) pf out
  = (Returned
       (filter (fun msg => isValidMessage msg pf)
          (flat_map
             (fun f => match decodeFile JSON_parse_file f with
                       | Some msg => [msg]
                       | None => []
                       end)
             (jsonFilesOf sessionDirs))),
     out).
Proof.
  intro Hok. unfold FileLoader.loadMessages, try_catch.
  unfold bind at 1. unfold lift at 1.
  unfold bind at 1. rewrite (collectFilePaths_succeeds _ [] out Hok).
  cbn [app]. unfold bind at 1. rewrite read_files.
  unfold ret.
  match goal with
  | |- (Returned (FileLoader.filter_guard ?p ?l), _) = _ =>
      change p with (fun r : option MessageJson =>
                       match r with
                       | None => false
                       | Some msg => isValidMessage msg pf
                       end)
  end.
  rewrite filter_guard_as_filter.
  f_equal. f_equal. f_equal.
  induction (jsonFilesOf sessionDirs) as [|f l IH]; [reflexivity|].
  cbn [map flat_map]. rewrite IH. reflexivity.
Qed.

(** X8 -- Every load path contains its failures.  When a load path fails
    with [err] (the database does not open, the query throws, a queried
    row does not decode; the message directory cannot be read, an entry
    cannot be examined or a session directory cannot be listed), the
    loader returns normally with no messages and has logged one line, its
    own prefix followed by the error. *)
Theorem every_load_path_contains_its_failures (path : LoadPath)
    (pf : option string) (out : Console) (err : Thrown) :
  pathFailure JSON_parse path err ->
  loadVia JSON_parse JSON_parse_file path pf out
  = (Returned [],
     (out ++ [(pathErrorPrefix path ++ String_of err)%string])%list).
Proof.
  destruct path as [s|now s hb|s c|s]; cbn [pathFailure loadVia pathErrorPrefix].
  - intro Hfail. rewrite loadMessages_cases.
    destruct Hfail as [e|e|rows e Hdec]; try reflexivity.
    rewrite Hdec. reflexivity.
  - intro Hfail. rewrite loadRecentMessages_cases.
    destruct Hfail as [e|e|rows e Hdec]; try reflexivity.
    rewrite Hdec. reflexivity.
  - intro Hfail. unfold bind.
    rewrite LoaderFacts.loadMessagesIncremental_cases.
    destruct Hfail as [e|e|rows e Hdec]; try reflexivity.
    fold (newerThan c rows) in Hdec. rewrite Hdec. reflexivity.
  - destruct s as [sessionDirs|e].
    + intro Hthrows. unfold FileLoader.loadMessages, try_catch.
      unfold bind at 1. unfold lift at 1. unfold bind at 1.
      rewrite (collectFilePaths_throws _ _ [] out Hthrows). reflexivity.
    + intros <-. reflexivity.
Qed.

End WithParsers.

Example recent_load_of_the_fixture :
  loadRecentMessages fixtureParse 86401500 mixedRoles None None []
  = (Returned
       [fixtureMessage "asst-1" "ses-1" (assistantData "anthropic" 2000)],
     []).
Proof. reflexivity. Qed.

Lemma recent_load_returns_the_recent_rows_witness :
  In (fixtureMessage "asst-1" "ses-1" (assistantData "anthropic" 2000))
    [fixtureMessage "asst-1" "ses-1" (assistantData "anthropic" 2000)]
  <-> exists row d,
        In row
          [fixtureRow "user-1" "ses-1" "user" 1000;
           fixtureRow "no-tokens" "ses-1" "assistant without tokens" 1500;
           fixtureRow "asst-1" "ses-1" "assistant anthropic 2000" 2000]
        /\ 86401500 - 24 * 3600000 <= time_created row
        /\ fixtureParse (data row) = Returned d
        /\ fixtureMessage "asst-1" "ses-1" (assistantData "anthropic" 2000)
           = messageOfRow row d
        /\ isValidMessage
             (fixtureMessage "asst-1" "ses-1" (assistantData "anthropic" 2000))
             None = true.
Proof.
  apply (recent_load_returns_the_recent_rows fixtureParse 86401500
           [fixtureRow "user-1" "ses-1" "user" 1000;
            fixtureRow "no-tokens" "ses-1" "assistant without tokens" 1500;
            fixtureRow "asst-1" "ses-1" "assistant anthropic 2000" 2000]
           None None []).
  reflexivity.
Defined.

Lemma incremental_load_returns_the_newer_rows_witness :
  In (fixtureMessage "msg-3" "ses-1" (assistantData "anthropic" 3000))
    [fixtureMessage "msg-3" "ses-1" (assistantData "anthropic" 3000)]
  <-> exists row d,
        In row (twoRows ++ laterRows)%list
        /\ 2000 < time_created row
        /\ fixtureParse (data row) = Returned d
        /\ fixtureMessage "msg-3" "ses-1" (assistantData "anthropic" 3000)
           = messageOfRow row d
        /\ isValidMessage
             (fixtureMessage "msg-3" "ses-1" (assistantData "anthropic" 3000))
             None = true.
Proof.
  apply (incremental_load_returns_the_newer_rows fixtureParse
           (twoRows ++ laterRows)%list {| lastTimestamp := 2000 |} None []
           {| messages :=
                [fixtureMessage "msg-3" "ses-1"
                   (assistantData "anthropic" 3000)];
              cursor := {| lastTimestamp := 3500 |} |}).
  reflexivity.
Defined.

Lemma fresh_cursor_loads_what_full_load_does_witness :
  exists r out1 out2,
    loadMessagesIncremental fixtureParse (Opened (MessageTable twoRows))
      createCursor None [] = (Returned r, out1)
    /\ loadMessages fixtureParse (Opened (MessageTable twoRows)) None []
       = (Returned (messages r), out2).
Proof.
  apply (fresh_cursor_loads_what_full_load_does fixtureParse twoRows None []).
  intros row [<-|[<-|[]]]; reflexivity.
Defined.

Lemma chained_loads_equal_full_load_witness :
  loadMessages fixtureParse (Opened (MessageTable (twoRows ++ laterRows)))
    None []
  = (Returned
       ([fixtureMessage "msg-1" "ses-1" (assistantData "anthropic" 1000);
         fixtureMessage "msg-2" "ses-1" (assistantData "anthropic" 2000)]
        ++ [fixtureMessage "msg-3" "ses-1" (assistantData "anthropic" 3000)])%list,
     []).
Proof.
  apply (chained_loads_equal_full_load fixtureParse twoRows laterRows None []
           {| messages :=
                [fixtureMessage "msg-1" "ses-1"
                   (assistantData "anthropic" 1000);
                 fixtureMessage "msg-2" "ses-1"
                   (assistantData "anthropic" 2000)];
              cursor := {| lastTimestamp := 2000 |} |}
           {| messages :=
                [fixtureMessage "msg-3" "ses-1"
                   (assistantData "anthropic" 3000)];
              cursor := {| lastTimestamp := 3500 |} |}).
  - intros row [<-|[<-|[]]]; reflexivity.
  - reflexivity.
  - intros row [<-|[<-|[]]]; reflexivity.
  - reflexivity.
Defined.

Lemma provider_filter_leaves_cursor_alone_witness :
  {| lastTimestamp := 2000 |} = {| lastTimestamp := 2000 |}
  /\ @nil string = []
  /\ incl (@nil MessageJson)
       [fixtureMessage "msg-1" "ses-1" (assistantData "anthropic" 1000);
        fixtureMessage "msg-2" "ses-1" (assistantData "anthropic" 2000)].
Proof.
  apply (provider_filter_leaves_cursor_alone fixtureParse twoMessages
           createCursor (Some "openai") [] [] []
           {| messages := []; cursor := {| lastTimestamp := 2000 |} |}
           {| messages :=
                [fixtureMessage "msg-1" "ses-1"
                   (assistantData "anthropic" 1000);
                 fixtureMessage "msg-2" "ses-1"
                   (assistantData "anthropic" 2000)];
              cursor := {| lastTimestamp := 2000 |} |}).
  - reflexivity.
  - reflexivity.
Defined.

Lemma directory_scan_skips_unusable_files_witness :
  FileLoader.loadMessages fixtureParseFile fixtureDirectory None []
  = (Returned [lowerCaseRecord], []).
Proof.
  apply (directory_scan_skips_unusable_files fixtureParseFile
           [ {| FileLoader.dir_name := "session-1";
                FileLoader.dir_isDirectory := Returned true;
                FileLoader.dir_listing :=
                  Returned
                    [ {| FileLoader.file_name := "user-1.json";
                         FileLoader.file_content := Returned "user-1" |};
                      {| FileLoader.file_name := "no-tokens.json";
                         FileLoader.file_content := Returned "no-tokens" |};
                      {| FileLoader.file_name := "msg-1.json";
                         FileLoader.file_content := Returned "msg-1" |};
                      {| FileLoader.file_name := "invalid.json";
                         FileLoader.file_content :=
                           Returned "{ invalid json" |};
                      {| FileLoader.file_name := "notes.txt";
                         FileLoader.file_content := Returned "user-1" |} ] |};
             {| FileLoader.dir_name := ".DS_Store";
                FileLoader.dir_isDirectory := Returned false;
                FileLoader.dir_listing :=
                  Threw (ErrorObject "Error" "ENOTDIR: not a directory") |} ]
           None []).
  constructor.
  - right. split; [reflexivity|]. eexists. reflexivity.
  - constructor; [|constructor]. left. reflexivity.
Defined.

Lemma every_load_path_contains_its_failures_witness :
  FileLoader.loadMessages fixtureParseFile unlistableDirectory None []
  = (Returned [],
     ["Error reading messages directory: Error: EACCES: permission denied"]).
Proof.
  apply (every_load_path_contains_its_failures fixtureParse fixtureParseFile
           (ViaDirectoryScan unlistableDirectory) None []
           (ErrorObject "Error" "EACCES: permission denied")).
  cbn [pathFailure unlistableDirectory].
  eapply later_throws_after_directory; [reflexivity|reflexivity|].
  apply listing_throws; reflexivity.
Defined.

End LoaderMoreFacts.

(* ===================================================================== *)
(** ** Further facts about the Codex quota source *)
(* ===================================================================== *)

Module CodexMoreFacts.

Import Codex CodexSpec.
Local Open Scope Q_scope.

(** X9 -- The loader reads one response.  Without a token (absent or
    empty) the network is not used at all; with a token, the result
    depends on the network only through its answer to the one request
    [GET CODEX_API_URL] with [Authorization: Bearer <token>]. *)
Theorem loadCodexQuota_reads_one_response (fetch1 fetch2 : Network)
    (token : option string) (out : Console) :
  (truthy_string token = true ->
   fetch1 (requestFor token) = fetch2 (requestFor token)) ->
  loadCodexQuota fetch1 token out = loadCodexQuota fetch2 token out.
Proof.
  intro Hsame. rewrite !CodexFacts.loadCodexQuota_cases.
  unfold windowsRead, failureReason.
  destruct (truthy_string token); cbn [negb]; [|reflexivity].
  rewrite (Hsame eq_refl). reflexivity.
Qed.

Lemma labelledWindows_shape (d : CodexUsageResponse) :
  (List.length (labelledWindows d) <= 3)%nat
  /\ NoDup (map fst (labelledWindows d)).
Proof.
  destruct d as [[[[p|] [s|]]|] [[[cp|] cs]|]]; cbn;
    (split; [lia|]);
    repeat (constructor;
            [cbn; intuition discriminate|]); constructor.
Qed.

Lemma windowsRead_shape (fetch : Network) (token : option string) :
  (List.length (windowsRead fetch token) <= 3)%nat
  /\ NoDup (map fst (windowsRead fetch token)).
Proof.
  unfold windowsRead.
  destruct (negb (truthy_string token)); [cbn; split; [lia|constructor]|].
  destruct (fetch (requestFor token)) as [response|err];
    [|cbn; split; [lia|constructor]].
  destruct (negb (ok response)); [cbn; split; [lia|constructor]|].
  destruct (json response) as [[d|]|err];
    try (cbn; split; [lia|constructor]).
  apply labelledWindows_shape.
Qed.

(** X10 -- The shape of the result.  [loadCodexQuota] returns at least one
    and at most three snapshots, all of source ["codex"], with pairwise
    different labels. *)
Theorem loadCodexQuota_result_shape (fetch : Network)
    (token : option string) (out out' : Console)
    (snaps : list QuotaSnapshot) :
  loadCodexQuota fetch token out = (Returned snaps, out') ->
  (1 <= List.length snaps <= 3)%nat
  /\ Forall (fun s => source s = "codex"%string) snaps
  /\ NoDup (map label snaps).
Proof.
  rewrite CodexFacts.loadCodexQuota_cases. intro H; injection H as <- _.
  destruct (windowsRead_shape fetch token) as [Hlen Hlabels].
  destruct (windowsRead fetch token) as [|lw lws].
  - cbn. split; [lia|]. split; [repeat constructor|].
    constructor; [intros []|constructor].
  - change (windowSnapshot lw :: map windowSnapshot lws)
      with (map windowSnapshot (lw :: lws)).
    rewrite length_map, map_map. split; [cbn in *; lia|]. split.
    + apply Forall_forall. intros s Hin. apply in_map_iff in Hin.
      destruct Hin as (x & <- & _). reflexivity.
    + exact Hlabels.
Qed.

(** X11 -- Nothing is clamped or converted.  Every window read gives a
    snapshot with that window's label and its [reset_at] unchanged; a
    [used_percent] above 100 gives a used fraction above 1, and a negative
    one a negative fraction. *)
Theorem window_values_pass_through (fetch : Network)
    (token : option string) (out out' : Console)
    (snaps : list QuotaSnapshot) (lw : string * Window) :
  loadCodexQuota fetch token out = (Returned snaps, out') ->
  In lw (windowsRead fetch token) ->
  exists s,
    In s snaps
    /\ label s = fst lw
    /\ error s = None
    /\ resetAt s = Some (reset_at (snd lw))
    /\ (100 < used_percent (snd lw) -> 1 < used s)
    /\ (used_percent (snd lw) < 0 -> used s < 0).
Proof.
  rewrite CodexFacts.loadCodexQuota_cases. intro H; injection H as <- _.
  intro Hin.
  destruct (windowsRead fetch token) as [|lw0 lws]; [destruct Hin|].
  exists (windowSnapshot lw). split.
  - change (In (windowSnapshot lw) (map windowSnapshot (lw0 :: lws))).
    apply in_map. exact Hin.
  - cbn [windowSnapshot label error resetAt used].
    repeat split.
    + intro Hbig. apply Qlt_shift_div_l; [reflexivity|].
      rewrite Qmult_1_l. exact Hbig.
    + intro Hneg. apply Qlt_shift_div_r; [reflexivity|].
      rewrite Qmult_0_l. exact Hneg.
Qed.

(** An empty token counts as no token. *)
Example token_needed_before_network :
  loadCodexQuota fixtureNetwork (Some ""%string) []
  = loadCodexQuota unauthorisedNetwork None [].
Proof. reflexivity. Qed.

Lemma loadCodexQuota_reads_one_response_witness :
  loadCodexQuota fixtureNetwork (Some "token"%string) []
  = loadCodexQuota
      (fun request =>
         if (authorization request =? "Bearer token")%string
         then fixtureNetwork request
         else Threw (NonError "offline"))
      (Some "token"%string) [].
Proof.
  apply (loadCodexQuota_reads_one_response fixtureNetwork
           (fun request =>
              if (authorization request =? "Bearer token")%string
              then fixtureNetwork request
              else Threw (NonError "offline"))
           (Some "token"%string) []).
  intros _. reflexivity.
Defined.

Lemma loadCodexQuota_result_shape_witness :
  (1 <= List.length fixtureSnapshots <= 3)%nat
  /\ Forall (fun s => source s = "codex"%string) fixtureSnapshots
  /\ NoDup (map label fixtureSnapshots).
Proof.
  apply (loadCodexQuota_result_shape fixtureNetwork (Some "token"%string)
           [] [] fixtureSnapshots).
  reflexivity.
Defined.

Lemma window_values_pass_through_witness :
  exists s,
    In s fixtureSnapshots
    /\ label s = "Codex - Weekly"%string
    /\ error s = None
    /\ resetAt s = Some 1770500000
    /\ (100 < 15 # 2 -> 1 < used s)
    /\ (15 # 2 < 0 -> used s < 0).
Proof.
  apply (window_values_pass_through fixtureNetwork (Some "token"%string)
           [] [] fixtureSnapshots
           ("Codex - Weekly"%string,
            {| used_percent := 15 # 2; reset_at := 1770500000 |})).
  - reflexivity.
  - right. left. reflexivity.
Defined.

End CodexMoreFacts.

(* ===================================================================== *)
(** ** Further facts about the usage table *)
(* ===================================================================== *)

Module TableMoreFacts.

Import UStr UsageTable TableSpec TableMore.
Local Open Scope list_scope.
Local Open Scope nat_scope.

Lemma length_repeat_space (n : nat) : List.length (repeat_str space n) = n.
Proof. induction n as [|n IH]; cbn; [reflexivity|]. f_equal. exact IH. Qed.

Lemma length_padEnd (s : jsstring) (len : nat) :
  List.length (padEnd s len) = Nat.max (List.length s) len.
Proof.
  unfold padEnd. rewrite length_app, length_repeat_space. lia.
Qed.

Lemma length_padStart (s : jsstring) (len : nat) :
  List.length (padStart s len) = Nat.max (List.length s) len.
Proof.
  unfold padStart. rewrite length_app, length_repeat_space. lia.
Qed.

(** X12 -- Padding never truncates.  [padRight] and [padLeft] give a string
    of length [max(length, len)]: the text itself when it is already [len]
    units or longer, otherwise the text followed (for [padRight]) or
    preceded (for [padLeft]) by spaces only. *)
Theorem padding_never_truncates (str : jsstring) (len : nat) :
  List.length (padRight str len) = Nat.max (List.length str) len
  /\ List.length (padLeft str len) = Nat.max (List.length str) len
  /\ firstn (List.length str) (padRight str len) = str
  /\ skipn (List.length (padLeft str len) - List.length str)
       (padLeft str len) = str
  /\ Forall (fun u => u = 32%N) (skipn (List.length str) (padRight str len))
  /\ Forall (fun u => u = 32%N)
       (firstn (List.length (padLeft str len) - List.length str)
          (padLeft str len))
  /\ (len <= List.length str ->
      padRight str len = str /\ padLeft str len = str).
Proof.
  assert (Hspaces : forall n, Forall (fun u => u = 32%N) (repeat_str space n)).
  { induction n as [|n IH]; cbn; constructor; [reflexivity|exact IH]. }
  unfold padRight, padLeft.
  split; [apply length_padEnd|]. split; [apply length_padStart|].
  rewrite length_padStart. unfold padEnd, padStart.
  split; [rewrite firstn_app, Nat.sub_diag, firstn_all, firstn_O;
          apply app_nil_r|].
  assert (Hk : Nat.max (List.length str) len - List.length str
               = List.length (repeat_str space (len - List.length str))).
  { rewrite length_repeat_space. lia. }
  split; [rewrite Hk, skipn_app, Nat.sub_diag, skipn_all; reflexivity|].
  split; [rewrite skipn_app, Nat.sub_diag, skipn_all; cbn; apply Hspaces|].
  split; [rewrite Hk, firstn_app, Nat.sub_diag, firstn_all, firstn_O,
            app_nil_r; apply Hspaces|].
  intro Hlong. replace (len - List.length str) with 0 by lia.
  cbn. split; [apply app_nil_r|reflexivity].
Qed.

Section WithNumberFormat.

Variable toFixed : Q -> nat -> jsstring.
Variable toString : Q -> jsstring.
Variable localeCompare : jsstring -> jsstring -> Z.

(** X13 -- Wider terminals never get fewer columns.  [getTableWidthTier] is
    monotone in the width.  For two widths of which the smaller is not 0,
    the table [renderUsageTable] renders at the larger one has every
    column of the table it renders at the smaller one.  (The width 0
    counts as no width and renders the wide table.) *)
Theorem wider_is_never_narrower
    (dailyStats : list (jsstring * DailyStats)) (w1 w2 : Z) :
  dailyStats <> [] ->
  (w1 <= w2)%Z ->
  w1 <> 0%Z ->
  tierRank (getTableWidthTier w1) <= tierRank (getTableWidthTier w2)
  /\ renderUsageTable toFixed toString localeCompare dailyStats (Some w1)
     = tableOver toFixed toString (columnsOf (tierOf (Some w1)))
         (entriesOf dailyStats (sort localeCompare (map fst dailyStats)))
  /\ renderUsageTable toFixed toString localeCompare dailyStats (Some w2)
     = tableOver toFixed toString (columnsOf (tierOf (Some w2)))
         (entriesOf dailyStats (sort localeCompare (map fst dailyStats)))
  /\ tierRank (tierOf (Some w1)) <= tierRank (tierOf (Some w2))
  /\ incl (columnsOf (tierOf (Some w1))) (columnsOf (tierOf (Some w2))).
Proof.
  intros Hne Hle Hnz.
  split.
  { unfold getTableWidthTier.
    destruct (Z.ltb_spec w1 105), (Z.ltb_spec w2 105),
      (Z.ltb_spec w1 140), (Z.ltb_spec w2 140); try lia; cbn; lia. }
  split; [apply UsageTableFacts.renderUsageTable_table, Hne|].
  split; [apply UsageTableFacts.renderUsageTable_table, Hne|].
  unfold tierOf, getTableWidthTier.
  destruct (Z.eqb_spec w1 0) as [H0|_]; [contradiction|].
  destruct (Z.eqb_spec w2 0) as [->|_];
    destruct (Z.ltb_spec w1 105), (Z.ltb_spec w1 140);
    try lia;
    try (destruct (Z.ltb_spec w2 105), (Z.ltb_spec w2 140); try lia);
    cbn; (split; [lia|]); intros c Hc; cbn in *; tauto.
Qed.

Lemma Map_get_sameShown (a b : list (jsstring * DailyStats)) (d : jsstring) :
  Forall2 (fun x y => fst x = fst y /\ sameShown (snd x) (snd y)) a b ->
  match Map_get d a, Map_get d b with
  | Some x, Some y => sameShown x y
  | None, None => True
  | _, _ => False
  end.
Proof.
  induction 1 as [|[k x] [k' y] a b [Hk Hxy] _ IH]; cbn; [exact I|].
  cbn in Hk, Hxy. subst k'. destruct (eqb k d); [exact Hxy|exact IH].
Qed.

Lemma loopBody_sameShown (a b : list (jsstring * DailyStats))
    (tier : TableWidthTier) (st : LoopState) (d : jsstring) :
  Forall2 (fun x y => fst x = fst y /\ sameShown (snd x) (snd y)) a b ->
  loopBody toFixed toString a tier st d
  = loopBody toFixed toString b tier st d.
Proof.
  intro Hab. pose proof (Map_get_sameShown a b d Hab) as Hget.
  unfold loopBody.
  destruct (Map_get d a) as [x|], (Map_get d b) as [y|];
    try contradiction; [|reflexivity].
  destruct Hget as (Hm & Hi & Ho & Hr & Hw & Hc).
  rewrite Hm, Hi, Ho, Hr, Hw, Hc. reflexivity.
Qed.

(** X14 -- What the table does not read.  Two aggregates with the same
    keys in the same order whose days agree on models, input, output,
    cache-read and cache-write tokens and cost render to the same text:
    the reasoning tokens, the providers, the per-provider breakdown and
    the [date] field of a day never show. *)
Theorem table_ignores_reasoning_and_providers
    (a b : list (jsstring * DailyStats)) (width : option Z) :
  Forall2 (fun x y => fst x = fst y /\ sameShown (snd x) (snd y)) a b ->
  renderUsageTable toFixed toString localeCompare a width
  = renderUsageTable toFixed toString localeCompare b width.
Proof.
  intro Hab.
  assert (Hkeys : map fst a = map fst b).
  { induction Hab as [|x y a b [Hk _] _ IH]; cbn; [reflexivity|].
    rewrite Hk, IH. reflexivity. }
  assert (Hloop : forall tier dates st,
             fold_left (loopBody toFixed toString a tier) dates st
             = fold_left (loopBody toFixed toString b tier) dates st).
  { intros tier dates. induction dates as [|d dates IH]; intro st;
      [reflexivity|].
    cbn [fold_left]. rewrite (loopBody_sameShown a b tier st d Hab).
    apply IH. }
  unfold renderUsageTable. rewrite Hkeys. cbv zeta.
  destruct (List.length (sort localeCompare (map fst b)) =? 0)%nat;
    [reflexivity|].
  destruct (match width with
            | Some w => if (w =? 0)%Z then wide else getTableWidthTier w
            | None => wide
            end);
    cbv [tier_eqb negb]; cbv beta iota;
    rewrite Hloop; reflexivity.
Qed.

(** X15 -- The width matters through the tier only.  Two widths of the
    same tier give the same text; an absent width and the width zero
    count as the wide tier. *)
Theorem width_matters_through_tier_only
    (dailyStats : list (jsstring * DailyStats)) (w1 w2 : option Z) :
  tierOf w1 = tierOf w2 ->
  renderUsageTable toFixed toString localeCompare dailyStats w1
  = renderUsageTable toFixed toString localeCompare dailyStats w2.
Proof.
  intro Htier. unfold renderUsageTable. cbv zeta.
  change (match w1 with
          | Some w => if (w =? 0)%Z then wide else getTableWidthTier w
          | None => wide
          end) with (tierOf w1).
  change (match w2 with
          | Some w => if (w =? 0)%Z then wide else getTableWidthTier w
          | None => wide
          end) with (tierOf w2).
  rewrite Htier. reflexivity.
Qed.

Lemma length_dayLine (tier : TableWidthTier) (d : jsstring)
    (s : DailyStats) :
  let line := dayLine toFixed toString (columnsOf tier) (d, s) in
  let tok :=
    List.length
      (formatNumber toFixed toString
         (input s + cacheRead s + cacheWrite s + output s)%Q) in
  let cst := List.length (formatCost toFixed (cost s)) in
  lineWidth (columnsOf tier) <= List.length line
  /\ (List.length d <= 11 -> tok <= 11 -> cst <= 9 ->
      List.length line = lineWidth (columnsOf tier))
  /\ (11 < List.length d -> lineWidth (columnsOf tier) < List.length line).
Proof.
  pose proof (length_firstn 28 (leastModel (models s))) as Hmodel.
  destruct tier;
    cbv [dayLine columnsOf shown tier_eqb negb filter map joinCells
         fold_right dayCell columnWidth lineWidth fst snd padRight padLeft
         substring0];
    repeat rewrite ?length_app, ?length_padEnd, ?length_padStart;
    cbn [List.length v lit list_ascii_of_string map Nat.add];
    repeat split; intros; lia.
Qed.

Lemma newline_moves_left (lines : list jsstring) :
  newline ++ List.concat (map (fun line => line ++ newline) lines)
  = List.concat (map (fun line => newline ++ line) lines) ++ newline.
Proof.
  induction lines as [|l lines IH]; [reflexivity|].
  cbn [map List.concat]. rewrite <- !app_assoc. rewrite IH. reflexivity.
Qed.

(** The table around the line of one entry. *)
Lemma tableOver_around_line (cols : list Column)
    (l1 l2 : list (jsstring * DailyStats)) (e : jsstring * DailyStats) :
  exists before after,
    tableOver toFixed toString cols (l1 ++ e :: l2)
    = joinCells tl mt tr (map borderCell cols)
      ++ newline ++ before ++ newline
      ++ dayLine toFixed toString cols e ++ newline ++ after.
Proof.
  exists (joinCells v v v (map headerCell cols) ++ newline
          ++ joinCells ml mm mr (map borderCell cols)
          ++ List.concat
               (map (fun line => newline ++ line)
                  (map (dayLine toFixed toString cols) l1))).
  eexists. unfold tableOver.
  rewrite (map_app (dayLine toFixed toString cols)). cbn [map].
  rewrite !map_app, !concat_app. cbn [map List.concat].
  rewrite <- !app_assoc. cbn [app].
  rewrite (app_assoc newline
             (List.concat
                (map (fun line => line ++ newline)
                   (map (dayLine toFixed toString cols) l1)))).
  rewrite newline_moves_left.
  rewrite <- !app_assoc. reflexivity.
Qed.

(** X16 -- Rows line up when their cells fit.  The line of a day is never
    shorter than the top border.  It is exactly as long when the date key
    has at most 11 code units and the formatted token count and cost have
    at most 11 and 9; a longer date key is not cut (model names are, date
    keys are not) and makes its line longer than the border. *)
Theorem rows_line_up_when_cells_fit
    (dailyStats : list (jsstring * DailyStats)) (width : option Z)
    (d : jsstring) (s : DailyStats) :
  NoDup (map fst dailyStats) ->
  In (d, s) dailyStats ->
  exists before line after,
    renderUsageTable toFixed toString localeCompare dailyStats width
    = joinCells tl mt tr (map borderCell (columnsOf (tierOf width)))
      ++ newline ++ before ++ newline ++ line ++ newline ++ after
    /\ firstn (2 + List.length d) line = v ++ lit " " ++ d
    /\ List.length
         (joinCells tl mt tr (map borderCell (columnsOf (tierOf width))))
       = lineWidth (columnsOf (tierOf width))
    /\ lineWidth (columnsOf (tierOf width)) <= List.length line
    /\ (List.length d <= 11 ->
        List.length
          (formatNumber toFixed toString
             (input s + cacheRead s + cacheWrite s + output s)%Q) <= 11 ->
        List.length (formatCost toFixed (cost s)) <= 9 ->
        List.length line = lineWidth (columnsOf (tierOf width)))
    /\ (11 < List.length d ->
        lineWidth (columnsOf (tierOf width)) < List.length line).
Proof.
  intros Hnodup Hin.
  rewrite UsageTableFacts.renderUsageTable_table
    by (intros ->; destruct Hin).
  assert (Hentry :
            In (d, s)
              (entriesOf dailyStats
                 (sort localeCompare (map fst dailyStats)))).
  { unfold entriesOf. apply in_flat_map. exists d. split.
    - apply UStrFacts.sort_In. apply in_map_iff. exists (d, s). auto.
    - rewrite (UsageTableFacts.Map_get_entry _ _ _ Hnodup Hin).
      left. reflexivity. }
  destruct (in_split _ _ Hentry) as (l1 & l2 & ->).
  destruct (tableOver_around_line (columnsOf (tierOf width)) l1 l2 (d, s))
    as (before & after & Htable).
  exists before, (dayLine toFixed toString (columnsOf (tierOf width)) (d, s)),
    after.
  split; [exact Htable|].
  pose proof (length_dayLine (tierOf width) d s) as Hlen.
  cbv zeta in Hlen. destruct Hlen as (Hge & Hfit & Hlong).
  split.
  - destruct (tierOf width);
      cbv [dayLine columnsOf shown tier_eqb negb filter map joinCells
           fold_right dayCell columnWidth fst snd padRight padEnd];
      rewrite <- !app_assoc;
      rewrite (app_assoc (lit " ") d), (app_assoc v (lit " " ++ d));
      (rewrite firstn_app;
       replace (2 + List.length d - List.length (v ++ lit " " ++ d)) with 0
         by (rewrite !length_app; cbn; lia);
       rewrite firstn_O, app_nil_r;
       apply firstn_all2; rewrite !length_app; cbn; lia).
  - split; [destruct (tierOf width); reflexivity|].
    split; [exact Hge|]. split; [exact Hfit|exact Hlong].
Qed.

Lemma entries_of_own_keys (dailyStats part : list (jsstring * DailyStats)) :
  NoDup (map fst dailyStats) ->
  incl part dailyStats ->
  entriesOf dailyStats (map fst part) = part.
Proof.
  intros Hnodup. induction part as [|[d s] part IH]; intro Hincl;
    [reflexivity|].
  unfold entriesOf. cbn [map flat_map fst].
  fold (entriesOf dailyStats (map fst part)).
  rewrite (UsageTableFacts.Map_get_entry dailyStats d s Hnodup)
    by (apply Hincl; left; reflexivity).
  cbn [app]. f_equal. apply IH.
  intros e He. apply Hincl. right. exact He.
Qed.

Lemma entries_permutation (dailyStats : list (jsstring * DailyStats)) :
  NoDup (map fst dailyStats) ->
  Permutation
    (entriesOf dailyStats (sort localeCompare (map fst dailyStats)))
    dailyStats.
Proof.
  intro Hnodup.
  rewrite <- (entries_of_own_keys dailyStats dailyStats Hnodup)
    at 3 by apply incl_refl.
  unfold entriesOf. apply Permutation_flat_map.
  symmetry. apply UStrFacts.sort_perm.
Qed.

Lemma entries_keys (dailyStats : list (jsstring * DailyStats))
    (dates : list jsstring) :
  map fst (entriesOf dailyStats dates)
  = filter (fun d => match Map_get d dailyStats with
                     | Some _ => true
                     | None => false
                     end) dates.
Proof.
  induction dates as [|d dates IH]; [reflexivity|].
  unfold entriesOf. cbn [flat_map filter].
  fold (entriesOf dailyStats dates).
  destruct (Map_get d dailyStats); cbn; rewrite IH; reflexivity.
Qed.

Lemma insert_sorted_sorted (cmp : jsstring -> jsstring -> Z) (x : jsstring)
    (l : list jsstring) :
  (forall a b, (0 < cmp a b)%Z -> (cmp b a <= 0)%Z) ->
  Sorted (fun a b => (cmp a b <= 0)%Z) l ->
  Sorted (fun a b => (cmp a b <= 0)%Z) (insert_sorted cmp x l).
Proof.
  intros Htotal Hsorted. induction Hsorted as [|y l Hl IH Hhd];
    cbn; [repeat constructor|].
  destruct (Z.leb_spec (cmp x y) 0) as [Hle|Hgt].
  - constructor; [constructor; assumption|constructor; exact Hle].
  - constructor; [exact IH|].
    destruct l as [|z l]; cbn.
    + constructor. apply Htotal, Hgt.
    + destruct (Z.leb_spec (cmp x z) 0).
      * constructor. apply Htotal, Hgt.
      * constructor. inversion Hhd; assumption.
Qed.

Lemma sort_sorted (cmp : jsstring -> jsstring -> Z) (l : list jsstring) :
  (forall a b, (0 < cmp a b)%Z -> (cmp b a <= 0)%Z) ->
  Sorted (fun a b => (cmp a b <= 0)%Z) (sort cmp l).
Proof.
  intro Htotal. induction l as [|x l IH]; cbn; [constructor|].
  apply insert_sorted_sorted; assumption.
Qed.

(** X17 -- One line per day, in date order.  For an aggregate with
    distinct keys and a comparison in which of two keys one precedes the
    other, the table is made of the lines of the days of the aggregate,
    each day once, ordered by [localeCompare] on the keys,
    whatever the order of insertion. *)
Theorem rows_are_the_days_in_date_order
    (dailyStats : list (jsstring * DailyStats)) (width : option Z) :
  dailyStats <> [] ->
  NoDup (map fst dailyStats) ->
  (forall a b, (0 < localeCompare a b)%Z -> (localeCompare b a <= 0)%Z) ->
  exists entries,
    renderUsageTable toFixed toString localeCompare dailyStats width
    = tableOver toFixed toString (columnsOf (tierOf width)) entries
    /\ Permutation entries dailyStats
    /\ Sorted (fun a b => (localeCompare a b <= 0)%Z) (map fst entries).
Proof.
  intros Hne Hnodup Htotal.
  exists (entriesOf dailyStats (sort localeCompare (map fst dailyStats))).
  split; [apply UsageTableFacts.renderUsageTable_table, Hne|].
  split; [apply entries_permutation, Hnodup|].
  rewrite entries_keys, LoaderMoreFacts.filter_all.
  - apply sort_sorted, Htotal.
  - intros d Hd. apply UStrFacts.sort_In in Hd.
    destruct (UsageTableFacts.Map_get_key dailyStats d Hd) as [s ->].
    reflexivity.
Qed.

Lemma fold_addDay_sums (entries : list (jsstring * DailyStats))
    (a b c : Q) :
  let totals := fold_left addDay entries (a, b, c) in
  (fst (fst totals)
   == a + sumOver (fun s => input s + cacheRead s + cacheWrite s) entries)%Q
  /\ (snd (fst totals) == b + sumOver output entries)%Q
  /\ (snd totals == c + sumOver cost entries)%Q.
Proof.
  revert a b c. induction entries as [|e entries IH]; intros a b c.
  - cbn. repeat split; ring.
  - cbn [fold_left addDay snd]. cbv zeta.
    destruct (IH (a + (input (snd e) + cacheRead (snd e)
                       + cacheWrite (snd e)))%Q
                (b + output (snd e))%Q (c + cost (snd e))%Q)
      as (Hi & Ho & Hc).
    cbv zeta in Hi, Ho, Hc. rewrite Hi, Ho, Hc.
    unfold sumOver. cbn [fold_right]. repeat split; ring.
Qed.

Lemma sumOver_permutation (f : DailyStats -> Q)
    (a b : list (jsstring * DailyStats)) :
  Permutation a b -> (sumOver f a == sumOver f b)%Q.
Proof.
  induction 1 as [|x a b _ IH|x y a|a b c _ IH1 _ IH2]; unfold sumOver in *;
    cbn [fold_right].
  - reflexivity.
  - rewrite IH. reflexivity.
  - ring.
  - rewrite IH1. exact IH2.
Qed.

(** X18 -- The totals line adds up the days.  For an aggregate with
    distinct keys, the text ends with the totals line and the bottom
    border; the token total shown is the sum over the days of input,
    cache-read, cache-write and output tokens, and the cost shown is the
    sum of the days' costs.  Reasoning tokens are not part of the
    total. *)
Theorem totals_line_adds_up_the_days
    (dailyStats : list (jsstring * DailyStats)) (width : option Z) :
  dailyStats <> [] ->
  NoDup (map fst dailyStats) ->
  exists before totalInput totalOutput totalCost,
    renderUsageTable toFixed toString localeCompare dailyStats width
    = before
      ++ joinCells v v v
           (map (totalCell toFixed toString
                   (totalInput, totalOutput, totalCost))
              (columnsOf (tierOf width)))
      ++ newline
      ++ joinCells bl mb br (map borderCell (columnsOf (tierOf width)))
    /\ (totalInput + totalOutput
        == sumOver (fun s => input s + cacheRead s + cacheWrite s + output s)
             dailyStats)%Q
    /\ (totalCost == sumOver cost dailyStats)%Q.
Proof.
  intros Hne Hnodup.
  rewrite (UsageTableFacts.renderUsageTable_table _ _ _ _ _ Hne).
  set (entries := entriesOf dailyStats
                    (sort localeCompare (map fst dailyStats))).
  pose proof (entries_permutation dailyStats Hnodup) as Hperm.
  fold entries in Hperm.
  pose proof (fold_addDay_sums entries 0 0 0) as Hsums. cbv zeta in Hsums.
  unfold tableOver.
  destruct (fold_left addDay entries (0%Q, 0%Q, 0%Q)) as [[ti to] tc].
  cbn [fst snd] in Hsums. destruct Hsums as (Hi & Ho & Hc).
  exists (List.concat
            (map (fun line => line ++ newline)
               ([joinCells tl mt tr
                   (map borderCell (columnsOf (tierOf width)));
                 joinCells v v v (map headerCell (columnsOf (tierOf width)));
                 joinCells ml mm mr
                   (map borderCell (columnsOf (tierOf width)))]
                ++ map (dayLine toFixed toString (columnsOf (tierOf width)))
                     entries
                ++ [joinCells ml mm mr
                      (map borderCell (columnsOf (tierOf width)))]))).
  exists ti, to, tc. split.
  - rewrite !map_app, !concat_app. cbn [map List.concat].
    rewrite !app_nil_r. rewrite <- !app_assoc. reflexivity.
  - rewrite Hi, Ho, Hc.
    rewrite <- (sumOver_permutation _ _ _ Hperm).
    rewrite <- (sumOver_permutation cost _ _ Hperm).
    split; [|ring].
    rewrite (Qplus_0_l
               (sumOver (fun s => input s + cacheRead s + cacheWrite s)%Q
                  entries)), (Qplus_0_l (sumOver output entries)).
    clear. induction entries as [|e entries IH]; unfold sumOver in *;
      cbn [fold_right]; [ring|].
    rewrite <- IH. ring.
Qed.

End WithNumberFormat.

Example two_days_sorted_and_totalled :
  renderUsageTable toFixedExact toStringInteger compare_units twoDays
    (Some 120%Z)
  = tl ++ repeat_str h 12 ++ mt ++ repeat_str h 12 ++ mt ++ repeat_str h 10
    ++ tr ++ newline
    ++ v ++ lit " Date       " ++ v ++ lit "     Tokens " ++ v
    ++ lit "     Cost " ++ v ++ newline
    ++ ml ++ repeat_str h 12 ++ mm ++ repeat_str h 12 ++ mm ++ repeat_str h 10
    ++ mr ++ newline
    ++ v ++ lit " 2025-02-10 " ++ v ++ lit "       1.5K " ++ v
    ++ lit "   $10.00 " ++ v ++ newline
    ++ v ++ lit " 2025-02-15 " ++ v ++ lit "       3.0K " ++ v
    ++ lit "   $20.00 " ++ v ++ newline
    ++ ml ++ repeat_str h 12 ++ mm ++ repeat_str h 12 ++ mm ++ repeat_str h 10
    ++ mr ++ newline
    ++ v ++ lit " Total      " ++ v ++ lit "       4.5K " ++ v
    ++ lit "   $30.00 " ++ v ++ newline
    ++ bl ++ repeat_str h 12 ++ mb ++ repeat_str h 12 ++ mb ++ repeat_str h 10
    ++ br.
Proof. reflexivity. Qed.

Example long_key_overflows :
  renderUsageTable toFixedExact toStringInteger compare_units longKeyDay
    (Some 90%Z)
  = tl ++ repeat_str h 12 ++ mt ++ repeat_str h 10 ++ tr ++ newline
    ++ v ++ lit " Date       " ++ v ++ lit "     Cost " ++ v ++ newline
    ++ ml ++ repeat_str h 12 ++ mm ++ repeat_str h 10 ++ mr ++ newline
    ++ v ++ lit " 2025-02-11T00:00" ++ v ++ lit "    $1.00 " ++ v ++ newline
    ++ ml ++ repeat_str h 12 ++ mm ++ repeat_str h 10 ++ mr ++ newline
    ++ v ++ lit " Total      " ++ v ++ lit "    $1.00 " ++ v ++ newline
    ++ bl ++ repeat_str h 12 ++ mb ++ repeat_str h 10 ++ br.
Proof. reflexivity. Qed.

(** Why the smaller width must not be 0: at width 0 the table is the wide
    one, and it loses two columns at width 50. *)
Example zero_width_renders_wide :
  tierOf (Some 0%Z) = wide
  /\ tierOf (Some 50%Z) = narrow
  /\ ~ incl (columnsOf (tierOf (Some 0%Z))) (columnsOf (tierOf (Some 50%Z))).
Proof.
  split; [reflexivity|]. split; [reflexivity|].
  intro Hincl. specialize (Hincl ColModels). cbn in Hincl.
  intuition discriminate.
Qed.

Lemma wider_is_never_narrower_witness :
  tierRank (getTableWidthTier 104) <= tierRank (getTableWidthTier 105)
  /\ renderUsageTable toFixedExact toStringInteger compare_units twoDays
       (Some 104%Z)
     = tableOver toFixedExact toStringInteger [ColDate; ColCost]
         (entriesOf twoDays (sort compare_units (map fst twoDays)))
  /\ renderUsageTable toFixedExact toStringInteger compare_units twoDays
       (Some 105%Z)
     = tableOver toFixedExact toStringInteger [ColDate; ColTokens; ColCost]
         (entriesOf twoDays (sort compare_units (map fst twoDays)))
  /\ tierRank narrow <= tierRank medium
  /\ incl [ColDate; ColCost] [ColDate; ColTokens; ColCost].
Proof.
  apply (wider_is_never_narrower toFixedExact toStringInteger compare_units
           twoDays 104 105).
  - discriminate.
  - lia.
  - discriminate.
Defined.

Lemma table_ignores_reasoning_and_providers_witness :
  renderUsageTable toFixedExact toStringInteger compare_units twoDays
    (Some 180%Z)
  = renderUsageTable toFixedExact toStringInteger compare_units
      twoDaysOtherwise (Some 180%Z).
Proof.
  apply (table_ignores_reasoning_and_providers toFixedExact toStringInteger
           compare_units twoDays twoDaysOtherwise (Some 180%Z)).
  repeat constructor.
Defined.

Lemma width_matters_through_tier_only_witness :
  renderUsageTable toFixedExact toStringInteger compare_units twoDays
    (Some 0%Z)
  = renderUsageTable toFixedExact toStringInteger compare_units twoDays
      (Some 200%Z).
Proof.
  apply (width_matters_through_tier_only toFixedExact toStringInteger
           compare_units twoDays (Some 0%Z) (Some 200%Z)).
  reflexivity.
Defined.

Lemma rows_line_up_when_cells_fit_witness :
  exists before line after,
    renderUsageTable toFixedExact toStringInteger compare_units longKeyDay
      (Some 90%Z)
    = joinCells tl mt tr (map borderCell (columnsOf narrow))
      ++ newline ++ before ++ newline ++ line ++ newline ++ after
    /\ firstn (2 + 16) line = v ++ lit " " ++ lit "2025-02-11T00:00"
    /\ List.length (joinCells tl mt tr (map borderCell (columnsOf narrow)))
       = lineWidth (columnsOf narrow)
    /\ lineWidth (columnsOf narrow) <= List.length line
    /\ (16 <= 11 ->
        List.length
          (formatNumber toFixedExact toStringInteger (100 + 0 + 0 + 50)%Q)
        <= 11 ->
        List.length (formatCost toFixedExact 1%Q) <= 9 ->
        List.length line = lineWidth (columnsOf narrow))
    /\ (11 < 16 -> lineWidth (columnsOf narrow) < List.length line).
Proof.
  apply (rows_line_up_when_cells_fit toFixedExact toStringInteger
           compare_units longKeyDay (Some 90%Z)
           (lit "2025-02-11T00:00") longKeyStats).
  - repeat constructor. intros [].
  - left. reflexivity.
Defined.

Lemma rows_are_the_days_in_date_order_witness :
  exists entries,
    renderUsageTable toFixedExact toStringInteger compare_units twoDays
      (Some 120%Z)
    = tableOver toFixedExact toStringInteger (columnsOf medium) entries
    /\ Permutation entries twoDays
    /\ Sorted (fun a b => (compare_units a b <= 0)%Z) (map fst entries).
Proof.
  apply (rows_are_the_days_in_date_order toFixedExact toStringInteger
           compare_units twoDays (Some 120%Z)).
  - discriminate.
  - repeat constructor; cbn; intuition discriminate.
  - apply UStrFacts.compare_units_total.
Defined.

Lemma totals_line_adds_up_the_days_witness :
  exists before totalInput totalOutput totalCost,
    renderUsageTable toFixedExact toStringInteger compare_units twoDays
      (Some 120%Z)
    = before
      ++ joinCells v v v
           (map (totalCell toFixedExact toStringInteger
                   (totalInput, totalOutput, totalCost))
              (columnsOf medium))
      ++ newline
      ++ joinCells bl mb br (map borderCell (columnsOf medium))
    /\ (totalInput + totalOutput
        == sumOver (fun s => input s + cacheRead s + cacheWrite s + output s)
             twoDays)%Q
    /\ (totalCost == sumOver cost twoDays)%Q.
Proof.
  apply (totals_line_adds_up_the_days toFixedExact toStringInteger
           compare_units twoDays (Some 120%Z)).
  - discriminate.
  - repeat constructor; cbn; intuition discriminate.
Defined.

End TableMoreFacts.

(* ===================================================================== *)
(** ** Facts about the configuration commands *)
(* ===================================================================== *)

Module ConfigFacts.

Import UStr.
Local Open Scope list_scope.
Local Open Scope nat_scope.

Lemma maskedToken_long (first8 middle last4 : jsstring) :
  List.length first8 = 8 ->
  List.length last4 = 4 ->
  ConfigCommands.maskedToken (first8 ++ middle ++ last4)
  = first8 ++ lit "..." ++ last4.
Proof.
  intros H8 H4.
  unfold ConfigCommands.maskedToken, ConfigCommands.substringFrom,
    substring0.
  assert (Hfirst : firstn 8 (first8 ++ middle ++ last4) = first8).
  { rewrite <- H8. rewrite firstn_app, firstn_all, Nat.sub_diag, firstn_O.
    apply app_nil_r. }
  assert (Hlast : skipn (List.length (first8 ++ middle ++ last4) - 4)
                    (first8 ++ middle ++ last4) = last4).
  { replace (List.length (first8 ++ middle ++ last4) - 4)
      with (List.length (first8 ++ middle))
      by (rewrite !length_app; lia).
    rewrite (app_assoc first8 middle last4).
    rewrite skipn_app, skipn_all, Nat.sub_diag. reflexivity. }
  rewrite Hfirst, Hlast. reflexivity.
Qed.

(** X19 -- The mask hides the middle of a long token.  For a token of 12
    code units or more, [showConfig] prints the configuration path, then
    the first 8 and the last 4 units of the token around three dots, then
    an empty line: what lies between the first 8 and the last 4 units has
    no effect on the output. *)
Theorem showConfig_hides_the_middle (config : ConfigCommands.Config)
    (configPath : jsstring) (stdout : ConfigCommands.Stdout)
    (first8 middle last4 : jsstring) :
  ConfigCommands.codexToken config = Some (first8 ++ middle ++ last4) ->
  List.length first8 = 8 ->
  List.length last4 = 4 ->
  ConfigCommands.showConfig config configPath stdout
  = stdout
    ++ [ [10%N] ++ lit "Configuration file: " ++ configPath ++ [10%N];
         lit "  codexToken: " ++ first8 ++ lit "..." ++ last4;
         [] ].
Proof.
  intros Htoken H8 H4.
  unfold ConfigCommands.showConfig, ConfigCommands.console_log.
  rewrite Htoken.
  destruct (eqb (first8 ++ middle ++ last4) []) eqn:Hempty.
  - apply UStrFacts.eqb_eq in Hempty.
    apply (f_equal (@List.length N)) in Hempty.
    rewrite !length_app in Hempty. cbn in Hempty. lia.
  - rewrite (maskedToken_long first8 middle last4 H8 H4).
    rewrite <- !app_assoc. reflexivity.
Qed.

(** X20 -- The mask does not hide a short token.  For a token of at most 8
    code units, the line that [showConfig] prints holds the whole token
    before the dots, followed by its last 4 units (all of it when it has
    at most 4) once more. *)
Theorem showConfig_prints_a_short_token_whole
    (config : ConfigCommands.Config) (configPath : jsstring)
    (stdout : ConfigCommands.Stdout) (token : jsstring) :
  ConfigCommands.codexToken config = Some token ->
  token <> [] ->
  List.length token <= 8 ->
  ConfigCommands.showConfig config configPath stdout
  = stdout
    ++ [ [10%N] ++ lit "Configuration file: " ++ configPath ++ [10%N];
         lit "  codexToken: " ++ token ++ lit "..."
         ++ skipn (List.length token - 4) token;
         [] ]
  /\ (List.length token <= 4 -> skipn (List.length token - 4) token = token).
Proof.
  intros Htoken Hne Hshort.
  unfold ConfigCommands.showConfig, ConfigCommands.console_log.
  rewrite Htoken.
  destruct (eqb token []) eqn:Hempty;
    [apply UStrFacts.eqb_eq in Hempty; contradiction|].
  unfold ConfigCommands.maskedToken, ConfigCommands.substringFrom,
    substring0.
  rewrite (firstn_all2 token) by exact Hshort.
  split.
  - rewrite <- !app_assoc. reflexivity.
  - intro H4. replace (List.length token - 4) with 0 by lia. reflexivity.
Qed.

Section WithParser.

Variable JSON_parse : jsstring -> Outcome (option ConfigAuth.AuthJson).

(** X21 -- The auth report swallows every failure.  The later [showConfig]
    always prints three lines and never throws.  It reports the auth file
    as found exactly when the file can be read, parses as JSON to a
    value other than [null], and holds a non-empty
    [tokens.access_token]; a file that is missing, is not JSON, is
    [null], or has no such token is reported as not found, and the token
    itself is never printed. *)
Theorem showConfig_reports_auth_without_throwing (configPath : jsstring)
    (authFile : Outcome jsstring) (stdout : ConfigAuth.Stdout) :
  exists report,
    ConfigAuth.showConfig JSON_parse configPath authFile stdout
    = stdout
      ++ [ [10%N] ++ lit "Configuration file: " ++ configPath;
           lit "  Codex auth: " ++ report;
           [] ]
    /\ (report = lit "~/.codex/auth.json (auto)"
        \/ report = lit "(not found " ++ [8212%N] ++ lit " run: codex login)")
    /\ (report = lit "~/.codex/auth.json (auto)"
        <-> exists content auth t a,
              authFile = Returned content
              /\ JSON_parse content = Returned (Some auth)
              /\ ConfigAuth.tokens auth = Some t
              /\ ConfigAuth.access_token t = Some a
              /\ a <> []).
Proof.
  unfold ConfigAuth.showConfig, ConfigAuth.console_log,
    ConfigAuth.readCodexAuth. cbv zeta.
  assert (Hdiff : lit "(not found " ++ [8212%N] ++ lit " run: codex login)"
                  <> lit "~/.codex/auth.json (auto)") by discriminate.
  destruct authFile as [content|err].
  2:{ eexists. split; [rewrite <- !app_assoc; reflexivity|].
      split; [right; reflexivity|]. split; [intro H; contradiction|].
      intros (c & au & t & a & H & _). discriminate. }
  destruct (JSON_parse content) as [[auth|]|err] eqn:Hparse.
  2,3: (eexists; split; [rewrite <- !app_assoc; reflexivity|];
        split; [right; reflexivity|]; split; [intro H; contradiction|];
        intros (c & au & t & a & Hc & Hp & _);
        injection Hc as <-; rewrite Hparse in Hp; discriminate).
  destruct (ConfigAuth.tokens auth) as [t|] eqn:Ht.
  2:{ eexists. split; [rewrite <- !app_assoc; reflexivity|].
      split; [right; reflexivity|]. split; [intro H; contradiction|].
      intros (c & au & t & a & Hc & Hp & Htok & _).
      injection Hc as <-. rewrite Hparse in Hp. injection Hp as <-.
      rewrite Ht in Htok. discriminate. }
  destruct (ConfigAuth.access_token t) as [a|] eqn:Ha.
  2:{ eexists. split; [rewrite <- !app_assoc; reflexivity|].
      split; [right; reflexivity|]. split; [intro H; contradiction|].
      intros (c & au & t' & a & Hc & Hp & Htok & Hacc & _).
      injection Hc as <-. rewrite Hparse in Hp. injection Hp as <-.
      rewrite Ht in Htok. injection Htok as <-.
      rewrite Ha in Hacc. discriminate. }
  destruct (eqb a []) eqn:Hempty; cbn [negb].
  - apply UStrFacts.eqb_eq in Hempty. subst a.
    eexists. split; [rewrite <- !app_assoc; reflexivity|].
    split; [right; reflexivity|]. split; [intro H; contradiction|].
    intros (c & au & t' & a & Hc & Hp & Htok & Hacc & Hne).
    injection Hc as <-. rewrite Hparse in Hp. injection Hp as <-.
    rewrite Ht in Htok. injection Htok as <-.
    rewrite Ha in Hacc. injection Hacc as <-. contradiction.
  - eexists. split; [rewrite <- !app_assoc; reflexivity|].
    split; [left; reflexivity|]. split; [intros _|reflexivity].
    exists content, auth, t, a. repeat split; try assumption.
    intros ->. rewrite UStrFacts.eqb_refl in Hempty. discriminate.
Qed.

End WithParser.

Example long_token_masked :
  ConfigCommands.showConfig
    {| ConfigCommands.codexToken := Some (lit "eyJhbGciOiJSUzI1NiIsInR5") |}
    (lit "/home/u/.config/opencode-usage/config.json") []
  = [ [10%N] ++ lit "Configuration file: "
      ++ lit "/home/u/.config/opencode-usage/config.json" ++ [10%N];
      lit "  codexToken: eyJhbGci...InR5";
      [] ].
Proof. reflexivity. Qed.

Example empty_token_not_set :
  ConfigCommands.showConfig {| ConfigCommands.codexToken := Some [] |}
    (lit "config.json") []
  = ConfigCommands.showConfig {| ConfigCommands.codexToken := None |}
      (lit "config.json") [].
Proof. reflexivity. Qed.

Lemma showConfig_hides_the_middle_witness :
  ConfigCommands.showConfig
    {| ConfigCommands.codexToken :=
         Some (lit "eyJhbGci" ++ lit "OiJSUzI1NiIs" ++ lit "InR5") |}
    (lit "config.json") []
  = []
    ++ [ [10%N] ++ lit "Configuration file: " ++ lit "config.json" ++ [10%N];
         lit "  codexToken: " ++ lit "eyJhbGci" ++ lit "..." ++ lit "InR5";
         [] ].
Proof.
  apply (showConfig_hides_the_middle
           {| ConfigCommands.codexToken :=
                Some (lit "eyJhbGci" ++ lit "OiJSUzI1NiIs" ++ lit "InR5") |}
           (lit "config.json") []
           (lit "eyJhbGci") (lit "OiJSUzI1NiIs") (lit "InR5")).
  - reflexivity.
  - reflexivity.
  - reflexivity.
Defined.

Lemma showConfig_prints_a_short_token_whole_witness :
  ConfigCommands.showConfig
    {| ConfigCommands.codexToken := Some (lit "sess-1") |}
    (lit "config.json") []
  = []
    ++ [ [10%N] ++ lit "Configuration file: " ++ lit "config.json" ++ [10%N];
         lit "  codexToken: " ++ lit "sess-1" ++ lit "..."
         ++ skipn (List.length (lit "sess-1") - 4) (lit "sess-1");
         [] ]
  /\ (List.length (lit "sess-1") <= 4 ->
      skipn (List.length (lit "sess-1") - 4) (lit "sess-1") = lit "sess-1").
Proof.
  apply (showConfig_prints_a_short_token_whole
           {| ConfigCommands.codexToken := Some (lit "sess-1") |}
           (lit "config.json") [] (lit "sess-1")).
  - reflexivity.
  - discriminate.
  - cbn. lia.
Defined.

End ConfigFacts.
